(** * zipserver: serving Deflate entries of a ZIP archive over HTTP

    A shallow embedding of package [zipserver] (pkg.go): the constructor
    [Handler], the content type resolver [conjureContentType], the file
    system adapter [seekableFS] and its file wrapper [seekableFile].

    The Go standard library is not part of the package.  Its small, closed
    functions ([strings.Contains], [strings.TrimPrefix], [path.Ext],
    [strconv.FormatUint], [http.Header], the HTTP date layout) are written
    out; [mime.TypeByExtension], [http.DetectContentType] and
    [http.FileServer] are parameters of the development.

    What the model takes from the library types:
    - a [*zip.Reader] is the list of its entries; an entry carries the
      header fields the package reads and the bytes the archive holds for
      it, or the error that reading its local header gives;
    - a pointer to the archive ([f.zr]) is the archive as it is when the
      method runs, so an archive that has turned unreadable is another
      value of the same field;
    - one [Read] of an entry delivers at least one byte and at most a
      buffer while the stream lasts, how many being the decompressor's
      choice;
    - the reader of a Deflate entry rejects [Read] once it has been
      closed; the reader of a Stored entry sits on [io.NopCloser], so its
      [Close] does nothing and it reads on;
    - [Reader.Open] resolves a name to the first entry of that name;
      directories are left out;
    - a response writer records what is written to it, as the recorder of
      the package's tests does, and its [Write] does not fail;
    - a reader as the archive opens it closes without an error, whatever
      has been read from it: the model has no corrupt streams, on which a
      read and the close after it fail;
    - the buffer pool and everything else of concurrent use is left out.

    Package internal/memseek, which [Handler] does not use, is embedded
    after package zipserver, over the interfaces of io/fs. *)

From Stdlib Require Import ZArith NArith Ascii String List Lia.
From Stdlib Require Import DecimalString DecimalN.
From stdpp Require Import base option list gmap strings.

Local Open Scope string_scope.

(** Bytes of a stream ([[]byte]). *)
Abbreviation bytes := (list Byte.byte).

(** [error] values.  The package builds one with [errors.New]; the others
    stand for what archive/zip and the io layer report. *)
Inductive error : Type :=
| errors_New (text : string)
| PathError (op path : string) (err : error).

(** A Go result pair [(v, err)] of a call that yields a value or fails. *)
Inductive result (A : Type) : Type :=
| Ok (v : A)
| Err (e : error).
Arguments Ok {A} v.
Arguments Err {A} e.

(** ** package strings, path, strconv *)

(** [strings.HasPrefix]. *)
Fixpoint strings_HasPrefix (s prefix : string) {struct prefix} : bool :=
  match prefix, s with
  | EmptyString, _ => true
  | String _ _, EmptyString => false
  | String p prefix', String c s' =>
      if Ascii.eqb c p then strings_HasPrefix s' prefix' else false
  end.

(** [strings.Contains]: [substr] occurs somewhere within [s]. *)
Fixpoint strings_Contains (s substr : string) : bool :=
  if strings_HasPrefix s substr then true
  else match s with
       | EmptyString => false
       | String _ s' => strings_Contains s' substr
       end.

(** [s[n:]]. *)
Fixpoint string_drop (n : nat) (s : string) : string :=
  match n, s with
  | O, _ => s
  | S _, EmptyString => EmptyString
  | S n', String _ s' => string_drop n' s'
  end.

(** [strings.TrimPrefix]: [s] without the leading [prefix], [s] itself when
    it does not start with [prefix]. *)
Definition strings_TrimPrefix (s prefix : string) : string :=
  if strings_HasPrefix s prefix then string_drop (String.length prefix) s
  else s.

(** The loop of [path.Ext], walking from the last byte towards the first:
    [rev_path] holds the bytes not yet visited, last one first, and [tail] is
    [path[i+1:]]. *)
Fixpoint path_Ext_loop (rev_path : list ascii) (tail : string) : string :=
  match rev_path with
  | [] => ""
  | c :: rest =>
      if Ascii.eqb c "/" then ""
      else if Ascii.eqb c "." then String c tail
      else path_Ext_loop rest (String c tail)
  end.

(** [path.Ext]: the suffix beginning at the final dot of the final
    slash-separated element, empty if there is no dot. *)
Definition path_Ext (path : string) : string :=
  path_Ext_loop (rev (list_ascii_of_string path)) "".

(** [strconv.FormatUint(n, 10)]. *)
Definition strconv_FormatUint (n : N) : string :=
  NilEmpty.string_of_uint (N.to_uint n).

(** ** package time: instants and the HTTP date layout *)

Module time.

(** A [time.Time]: an instant, in seconds since the Unix epoch, and the
    offset east of UTC of the location it is presented in. *)
Record Time : Type := mkTime { unixSec : Z; zoneOffset : Z }.

(** [t.UTC()]: the same instant, presented in UTC. *)
Definition UTC (t : Time) : Time :=
  {| unixSec := unixSec t; zoneOffset := 0 |}.

(** Decimal digits of [n], padded with zeros on the left to [width]. *)
Definition zeroPad (width : nat) (n : Z) : string :=
  let s := strconv_FormatUint (Z.to_N n) in
  String.concat "" (replicate (width - String.length s) "0") ++ s.

(** The year field: at least four digits, a sign in front when negative. *)
Definition formatYear (y : Z) : string :=
  if (y <? 0)%Z then "-" ++ zeroPad 4 (- y) else zeroPad 4 y.

Definition shortDayNames : list string :=
  ["Sun"; "Mon"; "Tue"; "Wed"; "Thu"; "Fri"; "Sat"].

Definition shortMonthNames : list string :=
  ["Jan"; "Feb"; "Mar"; "Apr"; "May"; "Jun";
   "Jul"; "Aug"; "Sep"; "Oct"; "Nov"; "Dec"].

(** Proleptic Gregorian date [(year, month, day)] of the day that lies
    [days] days after 1 January 1970. *)
Definition civil (days : Z) : Z * Z * Z :=
  let z := (days + 719468)%Z in
  let era := (z / 146097)%Z in
  let doe := (z - era * 146097)%Z in
  let yoe := ((doe - doe / 1460 + doe / 36524 - doe / 146096) / 365)%Z in
  let doy := (doe - (365 * yoe + yoe / 4 - yoe / 100))%Z in
  let mp := ((5 * doy + 2) / 153)%Z in
  let d := (doy - (153 * mp + 2) / 5 + 1)%Z in
  let m := (if (mp <? 10)%Z then mp + 3 else mp - 9)%Z in
  let y := (yoe + era * 400 + (if (m <=? 2)%Z then 1 else 0))%Z in
  (y, m, d).

(** [t.Format(http.TimeFormat)], the layout being
    ["Mon, 02 Jan 2006 15:04:05 GMT"]: the fields are those of the wall
    clock at [t]'s location, and ["GMT"] is literal text of the layout. *)
Definition Format_TimeFormat (t : Time) : string :=
  let wall := (unixSec t + zoneOffset t)%Z in
  let days := (wall / 86400)%Z in
  let secs := (wall mod 86400)%Z in
  let '(y, m, d) := civil days in
  let wd := Z.to_nat ((days + 4) mod 7) in
  nth wd shortDayNames "" ++ ", " ++ zeroPad 2 d ++ " "
  ++ nth (Z.to_nat (m - 1)) shortMonthNames "" ++ " " ++ formatYear y ++ " "
  ++ zeroPad 2 (secs / 3600) ++ ":" ++ zeroPad 2 (secs mod 3600 / 60) ++ ":"
  ++ zeroPad 2 (secs mod 60) ++ " GMT".

End time.


(** ** package io *)

Module io.

Definition SeekStart : Z := 0.
Definition SeekCurrent : Z := 1.
Definition SeekEnd : Z := 2.

Definition EOF : error := errors_New "EOF".

(** An [*io.SectionReader] over a section of the archive: the bytes of the
    section that have not been read yet. *)
Record SectionReader : Type := mkSectionReader { unread : bytes }.

(** [rd.Read(buf)] with [len(buf) = n]: the bytes delivered, the error and
    the reader afterwards. *)
Definition Read (n : nat) (rd : SectionReader)
  : bytes * option error * SectionReader :=
  match unread rd with
  | [] => ([], Some EOF, rd)
  | _ => (take n (unread rd), None, {| unread := drop n (unread rd) |})
  end.

End io.

(** ** package archive/zip, as far as the package reads it *)

Module zip.

Definition Store : Z := 0.
Definition Deflate : Z := 8.

Definition ErrAlgorithm : error := errors_New "zip: unsupported compression algorithm".

(** A [*zip.File].  [Name], [Method], [CompressedSize64] and [Modified] are
    the header fields the package reads.  The other fields describe the
    archive's bytes behind the entry: [body] is what locating the entry's
    body gives (an error when the local header cannot be read, else the
    archive's bytes from the body offset on); [plain] is the stream the
    entry's decompressor produces from that body; and the decompressor
    hands out at most [1 + burst p] bytes to one [Read] at position [p] of
    that stream. *)
Record File : Type := mkFile {
  Name : string;
  Method : Z;
  CompressedSize64 : N;
  Modified : time.Time;
  body : result bytes;
  plain : bytes;
  burst : nat -> nat
}.

(** The reader handed out for an opened entry (an [io.ReadCloser], and the
    [fs.File] behind [Reader.Open]): the decompressed stream, the read
    position, the bytes one [Read] gets at most, which decompressor is
    underneath, whether [Close] has been called, and the error the
    decompressor reports when it is closed and its stream did not end
    cleanly.  The decompressor registered for Store is [io.NopCloser],
    whose [Close] does nothing; the one for Deflate gives up its stream
    when it is closed. *)
Record entryReader : Type := mkEntryReader {
  data : bytes;
  pos : nat;
  atMost : nat -> nat;
  nopCloser : bool;
  closed : bool;
  closeErr : option error
}.

Definition errReadAfterClose : error := errors_New "Read after Close".

(** [rc.Read(buf)] with [len(buf) = n]: at most [n] bytes, and at least
    one when [n] is not 0, while the stream lasts; then [io.EOF].  The
    reader of a Deflate entry delivers nothing once it has been closed; the
    reader of a Stored entry reads on. *)
Definition Read (n : nat) (rc : entryReader)
  : bytes * option error * entryReader :=
  if closed rc && negb (nopCloser rc) then ([], Some errReadAfterClose, rc)
  else match drop (pos rc) (data rc) with
       | [] => ([], Some io.EOF, rc)
       | rest =>
           let chunk := take (Nat.min n (S (atMost rc (pos rc)))) rest in
           (chunk, None,
            {| data := data rc; pos := pos rc + length chunk;
               atMost := atMost rc; nopCloser := nopCloser rc;
               closed := closed rc; closeErr := closeErr rc |})
       end.

(** [rc.Close()]: the error of the decompressor's [Close], which is none
    for [io.NopCloser] and for a Deflate reader that has been closed
    before. *)
Definition Close (rc : entryReader) : option error * entryReader :=
  (if nopCloser rc || closed rc then None else closeErr rc,
   {| data := data rc; pos := pos rc; atMost := atMost rc;
      nopCloser := nopCloser rc; closed := true; closeErr := closeErr rc |}).

(** The registered decompressors: Store and Deflate. *)
Definition hasDecompressor (method : Z) : bool :=
  (method =? Store)%Z || (method =? Deflate)%Z.

(** [f.OpenRaw()]: the entry's bytes as stored, [CompressedSize64] of them
    (fewer when the archive ends before). *)
Definition OpenRaw (f : File) : result io.SectionReader :=
  match body f with
  | Err e => Err e
  | Ok stored =>
      Ok {| io.unread := take (N.to_nat (CompressedSize64 f)) stored |}
  end.

(** [f.Open()]: a fresh reader at the start of the decompressed stream,
    over the decompressor of the entry's method. *)
Definition Open (f : File) : result entryReader :=
  match body f with
  | Err e => Err e
  | Ok _ =>
      if hasDecompressor (Method f)
      then Ok {| data := plain f; pos := 0; atMost := burst f;
                 nopCloser := (Method f =? Store)%Z;
                 closed := false; closeErr := None |}
      else Err ErrAlgorithm
  end.

(** A [*zip.Reader]: the entries, in archive order ([z.File]). *)
Record Reader : Type := mkReader { Files : list File }.

Definition ErrNotExist : error := errors_New "file does not exist".

(** The entry [Reader.Open] resolves [name] to: the first one of that
    name.  Directories and name clean-up are outside the model. *)
Fixpoint lookupName (name : string) (files : list File) : option File :=
  match files with
  | [] => None
  | f :: rest => if String.eqb (Name f) name then Some f else lookupName name rest
  end.

(** [z.Open(name)], the [fs.FS] method of the archive. *)
Definition ReaderOpen (z : Reader) (name : string) : result entryReader :=
  match lookupName name (Files z) with
  | None => Err (PathError "open" name ErrNotExist)
  | Some f => Open f
  end.

End zip.

(** ** package net/http, as far as the package uses it *)

Module http.

Definition MethodGet : string := "GET".
Definition StatusOK : Z := 200.

(** [http.Header]: a map from field name to the values of the field.  Every
    name the package passes is already in canonical form, so the
    canonicalisation by [Add], [Set] and [Get] is left out. *)
Abbreviation Header := (gmap string (list string)).

(** [h.Add(key, value)]: one more value of the field. *)
Definition Add (key value : string) (h : Header) : Header :=
  <[key := (default [] (h !! key) ++ [value])%list]> h.

(** [h.Set(key, value)]: the only value of the field. *)
Definition Set_ (key value : string) (h : Header) : Header :=
  <[key := [value]]> h.

(** [h.Get(key)]: the first value of the field, empty when it has none. *)
Definition Get (key : string) (h : Header) : string :=
  match h !! key with
  | Some (v :: _) => v
  | _ => ""
  end.

(** All values of a field, [h.Values(key)]. *)
Definition Values (key : string) (h : Header) : list string :=
  default [] (h !! key).

(** The fields of a [*http.Request] the package reads: [r.Method],
    [r.URL.Path] and [r.Header]. *)
Record Request : Type := mkRequest {
  Method : string;
  URL_Path : string;
  ReqHeader : Header
}.

(** A response being written, as [httptest.ResponseRecorder] keeps it: the
    header map the handler edits, the status line and header block once
    they have gone out, and the body written so far. *)
Record ResponseWriter : Type := mkResponseWriter {
  RespHeader : Header;
  sent : option (Z * Header);
  Body : bytes
}.

(** [w.Header().Add(key, value)]. *)
Definition HeaderAdd (key value : string) (w : ResponseWriter) : ResponseWriter :=
  {| RespHeader := Add key value (RespHeader w); sent := sent w;
     Body := Body w |}.

(** [w.Header().Set(key, value)]. *)
Definition HeaderSet (key value : string) (w : ResponseWriter) : ResponseWriter :=
  {| RespHeader := Set_ key value (RespHeader w); sent := sent w;
     Body := Body w |}.

(** [w.WriteHeader(code)]: the first call fixes the status and the header
    block; later calls change nothing. *)
Definition WriteHeader (code : Z) (w : ResponseWriter) : ResponseWriter :=
  match sent w with
  | Some _ => w
  | None =>
      {| RespHeader := RespHeader w; sent := Some (code, RespHeader w);
         Body := Body w |}
  end.

(** [w.Write(p)]: sends the header block with status 200 if it has not gone
    out yet, then appends [p] to the body. *)
Definition Write (p : bytes) (w : ResponseWriter) : ResponseWriter :=
  let w' := WriteHeader StatusOK w in
  {| RespHeader := RespHeader w'; sent := sent w'; Body := (Body w' ++ p)%list |}.

(** An [http.Handler], by its [ServeHTTP] method: the response after the
    call.  [None] is a run-time panic inside the handler. *)
Definition Handler : Type := ResponseWriter -> Request -> option ResponseWriter.

End http.

(** [io.CopyBuffer(w, rd, buf)] with [len(buf) = n]: read a buffer, write
    what was read, stop at the first read error (end of stream included).
    [fuel] bounds the number of rounds. *)
Fixpoint CopyBuffer_loop (fuel n : nat) (w : http.ResponseWriter)
    (rd : io.SectionReader) : http.ResponseWriter * io.SectionReader :=
  match fuel with
  | O => (w, rd)
  | S fuel' =>
      let '(chunk, er, rd') := io.Read n rd in
      let w' := match chunk with [] => w | _ => http.Write chunk w end in
      match er with
      | Some _ => (w', rd')
      | None => CopyBuffer_loop fuel' n w' rd'
      end
  end.

(** Every round that does not end the copy consumes a byte, so one round
    per unread byte and one more for the end of the stream are enough. *)
Definition io_CopyBuffer (w : http.ResponseWriter) (rd : io.SectionReader)
    (n : nat) : http.ResponseWriter * io.SectionReader :=
  CopyBuffer_loop (S (length (io.unread rd))) n w rd.

(** * package zipserver *)

(** ** seekableFS and seekableFile *)

(** [type seekableFS struct{ *zip.Reader }]. *)
Record seekableFS : Type := mkSeekableFS { Reader : zip.Reader }.

(** [type seekableFile struct { fs.File; zr *zip.Reader; name string }].
    [File] is the state of the wrapped file, [zr] the archive the pointer
    refers to, as it is when a method runs. *)
Record seekableFile : Type := mkSeekableFile {
  File : zip.entryReader;
  zr : zip.Reader;
  name : string
}.

(** [func (s seekableFS) Open(name string) (fs.File, error)]. *)
Definition seekableFS_Open (s : seekableFS) (name : string) : result seekableFile :=
  match zip.ReaderOpen (Reader s) name with
  | Err err => Err err
  | Ok file => Ok {| File := file; zr := Reader s; name := name |}
  end.

Definition errArbitrarySeek : error :=
  errors_New "seekableFile does not support arbitrary seeks".

(** [func (f *seekableFile) Seek(offset int64, whence int) (int64, error)]:
    the returned pair and the receiver after the call. *)
Definition seekableFile_Seek (f : seekableFile) (offset whence : Z)
  : Z * option error * seekableFile :=
  if negb (offset =? 0)%Z || negb (whence =? io.SeekStart)%Z
  then (0%Z, Some errArbitrarySeek, f)
  else
    let '(cerr, closedFile) := zip.Close (File f) in
    let f1 := {| File := closedFile; zr := zr f; name := name f |} in
    match cerr with
    | Some err => (0%Z, Some err, f1)
    | None =>
        match zip.ReaderOpen (zr f) (name f) with
        | Err err => (0%Z, Some err, f1)
        | Ok file => (0%Z, None, {| File := file; zr := zr f; name := name f |})
        end
    end.

(** [Read] and [Close] of the embedded [fs.File], promoted to the wrapper. *)
Definition seekableFile_Read (n : nat) (f : seekableFile)
  : bytes * option error * seekableFile :=
  let '(p, err, file) := zip.Read n (File f) in
  (p, err, {| File := file; zr := zr f; name := name f |}).

Definition seekableFile_Close (f : seekableFile) : option error * seekableFile :=
  let '(err, file) := zip.Close (File f) in
  (err, {| File := file; zr := zr f; name := name f |}).

(** ** What the package takes from mime and net/http *)

(** The two file systems the package passes to [http.FS]. *)
Inductive FileSystem : Type :=
| FS_Reader (z : zip.Reader)
| FS_seekableFS (s : seekableFS).

(** The files they open. *)
Inductive fsFile : Type :=
| File_entryReader (rc : zip.entryReader)
| File_seekableFile (f : seekableFile).

Definition FS_Open (fsys : FileSystem) (name : string) : result fsFile :=
  match fsys with
  | FS_Reader z =>
      match zip.ReaderOpen z name with
      | Err err => Err err
      | Ok rc => Ok (File_entryReader rc)
      end
  | FS_seekableFS s =>
      match seekableFS_Open s name with
      | Err err => Err err
      | Ok f => Ok (File_seekableFile f)
      end
  end.

(** [mime.TypeByExtension], [http.DetectContentType] and
    [http.FileServer(http.FS(fsys))]: library functions the package calls
    and does not define. *)
Class Collaborators : Type := {
  mime_TypeByExtension : string -> string;
  http_DetectContentType : bytes -> string;
  http_FileServer : FileSystem -> http.Handler
}.

Section zipserver.

Context {lib : Collaborators}.

(** [func conjureContentType(zf *zip.File) string]. *)
Definition conjureContentType (zf : zip.File) : string :=
  let s := mime_TypeByExtension (path_Ext (zip.Name zf)) in
  if negb (String.eqb s "") then s
  else match zip.Open zf with
       | Err _ => "application/octet-stream"
       | Ok rc =>
           let '(b, _, rc') := zip.Read 512 rc in
           let _ := zip.Close rc' in
           http_DetectContentType b
       end.

(** [bufPool]: the buffers are 32 KiB long, and only their length
    matters here.  The pool saves allocations and is not modelled. *)
Definition bufPool_Get : nat := 32 * 1024.

(** The loop of [Handler] over [z.File], from entry [i] on:
    [m[z.File[i].Name] = i] for every Deflate entry. *)
Fixpoint indexFrom (i : nat) (files : list zip.File) (m : gmap string nat)
  : gmap string nat :=
  match files with
  | [] => m
  | f :: rest =>
      indexFrom (S i) rest
        (if (zip.Method f =? zip.Deflate)%Z then <[zip.Name f := i]> m else m)
  end.

(** [func Handler(z *zip.Reader) http.Handler].  [z.File[i]] panics when
    [i] is out of range. *)
Definition Handler (z : zip.Reader) : http.Handler :=
  let m := indexFrom 0 (zip.Files z) ∅ in
  let srv := http_FileServer (FS_Reader z) in
  if Nat.eqb (size m) 0 then srv
  else
    let srvSeek0 := http_FileServer (FS_seekableFS {| Reader := z |}) in
    let fallbackServe : http.Handler :=
      fun w r =>
        if String.eqb (mime_TypeByExtension (path_Ext (http.URL_Path r))) ""
        then srvSeek0 w r
        else srv w r in
    fun w r =>
      let w := http.HeaderAdd "Vary" "Accept-Encoding" w in
      let w := http.HeaderSet "Accept-Ranges" "none" w in
      if negb (String.eqb (http.Method r) http.MethodGet)
         || negb (String.eqb (http.Get "Range" (http.ReqHeader r)) "")
         || negb (strings_Contains
                    (http.Get "Accept-Encoding" (http.ReqHeader r)) "deflate")
      then fallbackServe w r
      else
        let key := strings_TrimPrefix (http.URL_Path r) "/" in
        let key := if String.eqb key "" then "index.html" else key in
        match m !! key with
        | None => fallbackServe w r
        | Some i =>
            match zip.Files z !! i with
            | None => None
            | Some zf =>
                match zip.OpenRaw zf with
                | Err _ => fallbackServe w r
                | Ok rd =>
                    let w := http.HeaderSet "Content-Type"
                               (conjureContentType zf) w in
                    let w := http.HeaderSet "Content-Length"
                               (strconv_FormatUint (zip.CompressedSize64 zf)) w in
                    let w := http.HeaderSet "Content-Encoding" "deflate" w in
                    let w := http.HeaderSet "Last-Modified"
                               (time.Format_TimeFormat
                                  (time.UTC (zip.Modified zf))) w in
                    let b := bufPool_Get in
                    Some (io_CopyBuffer w rd b).1
                end
            end
        end.

(** ** The parts of [Handler], by name *)

(** The map [m]: Deflate entries, name to index in [z.File]. *)
Definition deflateIndex (z : zip.Reader) : gmap string nat :=
  indexFrom 0 (zip.Files z) ∅.

(** [srv := http.FileServer(http.FS(z))]. *)
Definition srv (z : zip.Reader) : http.Handler :=
  http_FileServer (FS_Reader z).

(** [srvSeek0 := http.FileServer(http.FS(seekableFS{z}))]. *)
Definition srvSeek0 (z : zip.Reader) : http.Handler :=
  http_FileServer (FS_seekableFS {| Reader := z |}).

(** The closure [fallbackServe]. *)
Definition fallbackServe (z : zip.Reader) : http.Handler :=
  fun w r =>
    if String.eqb (mime_TypeByExtension (path_Ext (http.URL_Path r))) ""
    then srvSeek0 z w r
    else srv z w r.

(** The test that sends a request to [fallbackServe] at once: not a GET, a
    Range header, or no ["deflate"] in Accept-Encoding. *)
Definition ineligible (r : http.Request) : bool :=
  negb (String.eqb (http.Method r) http.MethodGet)
  || negb (String.eqb (http.Get "Range" (http.ReqHeader r)) "")
  || negb (strings_Contains (http.Get "Accept-Encoding" (http.ReqHeader r)) "deflate").

(** The variable [key]. *)
Definition lookupKey (r : http.Request) : string :=
  let key := strings_TrimPrefix (http.URL_Path r) "/" in
  if String.eqb key "" then "index.html" else key.

(** The two header edits every call of the returned closure starts with. *)
Definition announce (w : http.ResponseWriter) : http.ResponseWriter :=
  http.HeaderSet "Accept-Ranges" "none" (http.HeaderAdd "Vary" "Accept-Encoding" w).

(** The end of the closure, once [rd] is open: four header fields, then
    the copy of the raw stream. *)
Definition serveRaw (zf : zip.File) (rd : io.SectionReader)
    (w : http.ResponseWriter) : http.ResponseWriter :=
  let w := http.HeaderSet "Content-Type" (conjureContentType zf) w in
  let w := http.HeaderSet "Content-Length"
             (strconv_FormatUint (zip.CompressedSize64 zf)) w in
  let w := http.HeaderSet "Content-Encoding" "deflate" w in
  let w := http.HeaderSet "Last-Modified"
             (time.Format_TimeFormat (time.UTC (zip.Modified zf))) w in
  (io_CopyBuffer w rd bufPool_Get).1.

(** The [http.HandlerFunc] that [Handler] returns when [m] is not empty,
    put together from the parts. *)
Definition handlerFunc (z : zip.Reader) : http.Handler :=
  fun w r =>
    if ineligible r then fallbackServe z (announce w) r
    else
      match deflateIndex z !! lookupKey r with
      | None => fallbackServe z (announce w) r
      | Some i =>
          match zip.Files z !! i with
          | None => None
          | Some zf =>
              match zip.OpenRaw zf with
              | Err _ => fallbackServe z (announce w) r
              | Ok rd => Some (serveRaw zf rd (announce w))
              end
          end
      end.

End zipserver.

(** * package memseek (internal/memseek)

    The wrapper reads a file into memory when it opens it and serves
    [Read] and [Seek] from the copy.  It is written against the interfaces
    [fs.FS] and [fs.File], which are type classes here; [bytes.Reader] and
    [io.ReadFull] are written out from the library.  [io.ReadFull] loops
    for as long as the file returns neither a byte nor an error, so the
    loop takes a bound on its rounds, and [Open] with it.  Sentinel errors
    are told apart by their text. *)

(** The end of a call that can panic, or need more rounds than it got. *)
Inductive run (A : Type) : Type :=
| Done (v : A)
| Panic
| OutOfFuel.
Arguments Done {A} v.
Arguments Panic {A}.
Arguments OutOfFuel {A}.

(** [int64] arithmetic wraps around. *)
Definition int64 (z : Z) : Z := ((z + 2 ^ 63) mod 2 ^ 64 - 2 ^ 63)%Z.

(** [err == target] on errors. *)
Fixpoint error_eqb (a b : error) : bool :=
  match a, b with
  | errors_New s, errors_New t => String.eqb s t
  | PathError op path e, PathError op' path' e' =>
      String.eqb op op' && String.eqb path path' && error_eqb e e'
  | _, _ => false
  end.

(** ** package bytes: Reader *)

Module bytes.

(** [type Reader struct { s []byte; i int64; prevRune int }], without
    [prevRune], which only [UnreadRune] looks at. *)
Record Reader : Type := mkReader { s : bytes; i : Z }.

(** [r.Reset(b)]: the reader [Reader{b, 0, -1}]. *)
Definition Reset (b : bytes) : Reader := {| s := b; i := 0 |}.

(** [r.Read(b)] with [len(b) = n]. *)
Definition Read (n : nat) (r : Reader) : bytes * option error * Reader :=
  if (Z.of_nat (length (s r)) <=? i r)%Z then ([], Some io.EOF, r)
  else
    let p := take n (drop (Z.to_nat (i r)) (s r)) in
    (p, None, {| s := s r; i := i r + Z.of_nat (length p) |}).

Definition errWhence : error := errors_New "bytes.Reader.Seek: invalid whence".
Definition errNegative : error := errors_New "bytes.Reader.Seek: negative position".

(** [r.Seek(offset, whence)]. *)
Definition Seek (r : Reader) (offset whence : Z) : Z * option error * Reader :=
  let abs :=
    if (whence =? io.SeekStart)%Z then Some offset
    else if (whence =? io.SeekCurrent)%Z then Some (int64 (i r + offset))
    else if (whence =? io.SeekEnd)%Z
         then Some (int64 (Z.of_nat (length (s r)) + offset))
    else None in
  match abs with
  | None => (0%Z, Some errWhence, r)
  | Some abs =>
      if (abs <? 0)%Z then (0%Z, Some errNegative, r)
      else (abs, None, {| s := s r; i := abs |})
  end.

End bytes.

(** ** package io/fs: the interfaces *)

Module fs.

(** What the package asks of a [fs.FileInfo]. *)
Record FileInfo : Type := mkFileInfo { IsDir : bool; Size : Z }.

(** [type File interface { Stat; Read; Close }]: each method with the file
    after the call. *)
Class File (F : Type) : Type := {
  Stat : F -> result FileInfo;
  Read : nat -> F -> bytes * option error * F;
  Close : F -> option error * F
}.

(** [type FS interface { Open(name string) (File, error) }]. *)
Class FS (T F : Type) : Type := {
  Open : T -> string -> result F
}.

End fs.

(** ** io.ReadFull *)

Definition io_ErrUnexpectedEOF : error := errors_New "unexpected EOF".

(** The loop of [io.ReadAtLeast(r, buf, min)] with [min = len(buf) = len]:
    [for n < min && err == nil { nn, err = r.Read(buf[n:]); n += nn }],
    where [got] is [buf[:n]]. *)
Fixpoint ReadFull_loop {F : Type} `{fs.File F} (fuel len : nat) (got : bytes)
    (f : F) {struct fuel} : option (bytes * option error * F) :=
  if (length got <? len)%nat then
    match fuel with
    | O => None
    | S fuel' =>
        let '(p, err, f') := fs.Read (len - length got) f in
        match err with
        | Some e => Some ((got ++ p)%list, Some e, f')
        | None => ReadFull_loop fuel' len (got ++ p)%list f'
        end
    end
  else Some (got, None, f).

(** [io.ReadFull(f, buf)] with [len(buf) = len]: the bytes read into the
    buffer, the error and the file afterwards; [None] when [fuel] rounds do
    not end the loop. *)
Definition io_ReadFull {F : Type} `{fs.File F} (fuel len : nat) (f : F)
  : option (bytes * option error * F) :=
  match ReadFull_loop fuel len [] f with
  | None => None
  | Some (got, err, f') =>
      let err :=
        if (len <=? length got)%nat then None
        else match err with
             | Some e =>
                 if (0 <? length got)%nat && error_eqb e io.EOF
                 then Some io_ErrUnexpectedEOF else Some e
             | None => None
             end in
      Some (got, err, f')
  end.

(** ** The package *)

Module memseek.

Section memseek.

Context {T F : Type} `{fs.File F} `{!fs.FS T F}.

(** [type seekableFS struct { fs fs.FS }]. *)
Record seekableFS : Type := mkSeekableFS { fs : T }.

(** [func FS(f fs.FS) *seekableFS]. *)
Definition FS (f : T) : seekableFS := {| fs := f |}.

(** [type seekableFile struct { bytes.Reader; fs.File }]. *)
Record seekableFile : Type := mkSeekableFile {
  Reader : bytes.Reader;
  File : F
}.

(** The [fs.File] that [Open] returns: the file of the wrapped file system
    as it is, or a [*seekableFile]. *)
Inductive file : Type :=
| plain (f : F)
| seekable (sf : seekableFile).

(** [func (s *seekableFS) Open(name string) (fs.File, error)].
    [make([]byte, n)] panics when [n] is negative; [int] has 64 bits. *)
Definition Open (fuel : nat) (s : seekableFS) (name : string)
  : run (result file) :=
  match fs.Open (fs s) name with
  | Err err => Done (Err err)
  | Ok f =>
      match fs.Stat f with
      | Err err =>
          let _ := fs.Close f in
          Done (Err err)
      | Ok info =>
          if fs.IsDir info then Done (Ok (plain f))
          else if (fs.Size info <? 0)%Z then Panic
          else
            match io_ReadFull fuel (Z.to_nat (fs.Size info)) f with
            | None => OutOfFuel
            | Some (_, Some err, f') =>
                let _ := fs.Close f' in
                Done (Err err)
            | Some (data, None, f') =>
                Done (Ok (seekable {| File := f'; Reader := bytes.Reset data |}))
            end
      end
  end.

(** [func (f *seekableFile) Read(b []byte) (int, error)]. *)
Definition Read (n : nat) (f : seekableFile)
  : bytes * option error * seekableFile :=
  let '(p, err, rd) := bytes.Read n (Reader f) in
  (p, err, {| Reader := rd; File := File f |}).

(** [Seek], promoted from the embedded [bytes.Reader]. *)
Definition Seek (f : seekableFile) (offset whence : Z)
  : Z * option error * seekableFile :=
  let '(abs, err, rd) := bytes.Seek (Reader f) offset whence in
  (abs, err, {| Reader := rd; File := File f |}).

(** [Close] and [Stat], promoted from the embedded [fs.File]. *)
Definition Close (f : seekableFile) : option error * seekableFile :=
  let '(err, file) := fs.Close (File f) in
  (err, {| Reader := Reader f; File := file |}).

Definition Stat (f : seekableFile) : result fs.FileInfo := fs.Stat (File f).

End memseek.

End memseek.

(** ** archive/zip behind the interfaces *)

(** An entry opened by [z.Open(name)]: the reader, and what its [Stat]
    reports. *)
Record zipFile : Type := mkZipFile {
  info : result fs.FileInfo;
  reader : zip.entryReader
}.

#[export] Instance zipFile_File : fs.File zipFile := {|
  fs.Stat f := info f;
  fs.Read n f :=
    let '(p, err, rc) := zip.Read n (reader f) in
    (p, err, {| info := info f; reader := rc |});
  fs.Close f :=
    let '(err, rc) := zip.Close (reader f) in
    (err, {| info := info f; reader := rc |})
|}.

(** [*zip.Reader] as an [fs.FS].  The size in an entry's header is taken
    to be the length of its decompressed stream, as it is in an archive
    whose entries pass the reader's checks. *)
#[export] Instance zipReader_FS : fs.FS zip.Reader zipFile := {|
  fs.Open z name :=
    match zip.ReaderOpen z name with
    | Err err => Err err
    | Ok rc =>
        Ok {| info := Ok {| fs.IsDir := false;
                            fs.Size := Z.of_nat (length (zip.data rc)) |};
              reader := rc |}
    end
|}.

(** * A concrete setting: the archive of the package's tests

    Stand-ins for the three library functions, small enough to evaluate,
    and the archive that [zipFile()] of the test file builds: the entries
    ["LICENSE.txt"] and ["unknown"], both Deflate, with the same content. *)

Module demo.

(** A few rows of the extension table. *)
Definition TypeByExtension (ext : string) : string :=
  if String.eqb ext ".txt" then "text/plain; charset=utf-8"
  else if String.eqb ext ".html" then "text/html; charset=utf-8"
  else if String.eqb ext ".css" then "text/css; charset=utf-8"
  else "".

(** Bytes that mark a buffer as binary data for the sniffer. *)
Definition isBinaryByte (b : Byte.byte) : bool :=
  let n := Byte.to_N b in
  (n <=? 8)%N || (n =? 11)%N || ((14 <=? n)%N && (n <=? 26)%N)
  || ((28 <=? n)%N && (n <=? 31)%N).

(** The last two rules of the sniffer: text unless a binary byte occurs. *)
Definition DetectContentType (p : bytes) : string :=
  if forallb (fun b => negb (isBinaryByte b)) p
  then "text/plain; charset=utf-8"
  else "application/octet-stream".

(** [Read], [Close] and [Seek] through the [fs.File] a file system opened;
    a file without a [Seek] method cannot seek. *)
Definition fsRead (n : nat) (f : fsFile) : bytes * option error * fsFile :=
  match f with
  | File_entryReader rc =>
      let '(p, err, rc') := zip.Read n rc in (p, err, File_entryReader rc')
  | File_seekableFile sf =>
      let '(p, err, sf') := seekableFile_Read n sf in (p, err, File_seekableFile sf')
  end.

Definition errMissingSeek : error := errors_New "io.File missing Seek method".

Definition fsSeek (f : fsFile) (offset whence : Z) : Z * option error * fsFile :=
  match f with
  | File_entryReader _ => (0%Z, Some errMissingSeek, f)
  | File_seekableFile sf =>
      let '(n, err, sf') := seekableFile_Seek sf offset whence in
      (n, err, File_seekableFile sf')
  end.

(** The size [f.Stat()] reports: the length of the decompressed entry. *)
Definition fsSize (f : fsFile) : nat :=
  match f with
  | File_entryReader rc => length (zip.data rc)
  | File_seekableFile sf => length (zip.data (File sf))
  end.

(** Reads [f] to its end, at most [fuel] buffers of 512 bytes. *)
Fixpoint readAll (fuel : nat) (f : fsFile) : bytes :=
  match fuel with
  | O => []
  | S fuel' =>
      let '(p, err, f') := fsRead 512 f in
      match err with
      | Some _ => p
      | None => (p ++ readAll fuel' f')%list
      end
  end.

(** [io.ReadFull(f, buf)] with [len(buf) = n]: reads until the buffer is
    full or the file ends, at most [fuel] times. *)
Fixpoint readFull (fuel n : nat) (f : fsFile) : bytes * fsFile :=
  match fuel, n with
  | O, _ | _, O => ([], f)
  | S fuel', _ =>
      let '(p, err, f') := fsRead n f in
      match err with
      | Some _ => (p, f')
      | None =>
          let '(q, f'') := readFull fuel' (n - length p) f' in
          ((p ++ q)%list, f'')
      end
  end.

Definition plainText (status : Z) (msg : string) (w : http.ResponseWriter)
  : http.ResponseWriter :=
  let w := http.HeaderSet "Content-Type" "text/plain; charset=utf-8" w in
  let w := http.HeaderSet "X-Content-Type-Options" "nosniff" w in
  http.Write (list_byte_of_string msg) (http.WriteHeader status w).

(** A file server in the manner of [http.FileServer], for regular files
    only: 404 when the file does not open; the content type from the
    extension, else sniffed from the first 512 bytes, after which the file
    must seek back to its start; then the whole file with status 200,
    offered for range requests. *)
Definition FileServer (fsys : FileSystem) : http.Handler :=
  fun w r =>
    let name := strings_TrimPrefix (http.URL_Path r) "/" in
    match FS_Open fsys name with
    | Err _ => Some (plainText 404 "404 page not found" w)
    | Ok f =>
        let byExt := TypeByExtension (path_Ext name) in
        let '(ctype, seekErr, f) :=
          if String.eqb byExt ""
          then
            let '(p, f') := readFull 512 512 f in
            let '(_, err, f'') := fsSeek f' 0 io.SeekStart in
            (DetectContentType p, err, f'')
          else (byExt, None, f) in
        match seekErr with
        | Some _ => Some (plainText 500 "seeker can't seek" w)
        | None =>
            let content := readAll (S (fsSize f)) f in
            let w := http.HeaderSet "Content-Type" ctype w in
            let w := http.HeaderSet "Accept-Ranges" "bytes" w in
            Some (http.Write content (http.WriteHeader 200 w))
        end
    end.

Definition lib : Collaborators := {|
  mime_TypeByExtension := TypeByExtension;
  http_DetectContentType := DetectContentType;
  http_FileServer := FileServer
|}.

(** The content of both entries. *)
Definition license : bytes :=
  list_byte_of_string "Permission is hereby granted".

(** [license] as a Deflate stream: one final stored block, that is the
    header byte 1, the length 28 and its complement in two bytes each, and
    the 28 bytes themselves. *)
Definition licenseDeflated : bytes :=
  ([Byte.x01; Byte.x1c; Byte.x00; Byte.xe3; Byte.xff] ++ license)%list.

(** The inverse on such streams: the content of a Deflate stream that
    consists of one final stored block. *)
Definition inflateStored (stream : bytes) : option bytes :=
  match stream with
  | hd :: len0 :: len1 :: nlen0 :: nlen1 :: block =>
      if Byte.eqb hd Byte.x01
         && (Byte.to_N len0 + Byte.to_N nlen0 =? 255)%N
         && (Byte.to_N len1 + Byte.to_N nlen1 =? 255)%N
         && (N.of_nat (length block) =? Byte.to_N len0 + 256 * Byte.to_N len1)%N
      then Some block else None
  | _ => None
  end.

(** 1 February 2021, 12:30:00 UTC, recorded at UTC+1. *)
Definition modTime : time.Time :=
  {| time.unixSec := 1612182600; time.zoneOffset := 3600 |}.

(** A decompressor that hands out ten bytes at a time. *)
Definition tenAtATime : nat -> nat := fun _ => 9.

Definition entry (name : string) (method : Z) (stored : bytes) : zip.File :=
  {| zip.Name := name; zip.Method := method;
     zip.CompressedSize64 := N.of_nat (length stored);
     zip.Modified := modTime; zip.body := Ok stored; zip.plain := license;
     zip.burst := tenAtATime |}.

(** The archive of the tests. *)
Definition archive : zip.Reader :=
  {| zip.Files := [entry "LICENSE.txt" zip.Deflate licenseDeflated;
                   entry "unknown" zip.Deflate licenseDeflated] |}.

(** An archive without any Deflate entry. *)
Definition storedArchive : zip.Reader :=
  {| zip.Files := [entry "LICENSE.txt" zip.Store license] |}.

(** An archive with a name that occurs three times. *)
Definition duplicates : zip.Reader :=
  {| zip.Files := [entry "a.css" zip.Deflate licenseDeflated;
                   entry "b.css" zip.Store license;
                   entry "a.css" zip.Deflate licenseDeflated;
                   entry "a.css" zip.Store license] |}.

(** [archive] once its backing file has become unreadable: the local
    header of no entry can be read any more. *)
Definition errIO : error := errors_New "read: input/output error".

Definition unreadable (f : zip.File) : zip.File :=
  {| zip.Name := zip.Name f; zip.Method := zip.Method f;
     zip.CompressedSize64 := zip.CompressedSize64 f;
     zip.Modified := zip.Modified f; zip.body := Err errIO;
     zip.plain := zip.plain f; zip.burst := zip.burst f |}.

Definition brokenArchive : zip.Reader :=
  {| zip.Files := map unreadable (zip.Files archive) |}.

(** [httptest.NewRecorder()]. *)
Definition recorder : http.ResponseWriter :=
  {| http.RespHeader := ∅; http.sent := None; http.Body := [] |}.

(** [httptest.NewRequest(method, "http://localhost" + path, nil)] with the
    given header fields. *)
Definition request (method path : string) (fields : list (string * string))
  : http.Request :=
  {| http.Method := method; http.URL_Path := path;
     http.ReqHeader := list_to_map (map (fun kv => (kv.1, [kv.2])) fields) |}.

(** The request of [TestHandler]. *)
Definition getLicense : http.Request :=
  request "GET" "/LICENSE.txt" [("Accept-Encoding", "gzip, deflate, br")].

(** The request of [TestHandler_seekableFile]. *)
Definition getUnknown : http.Request := request "GET" "/unknown" [].

(** A request for ["/LICENSE.txt"] that accepts no encoding. *)
Definition getPlain : http.Request := request "GET" "/LICENSE.txt" [].

(** A request that declines deflate by name. *)
Definition getDeclining : http.Request :=
  request "GET" "/unknown" [("Accept-Encoding", "deflate;q=0")].

(** A request for a path that is not in the archive. *)
Definition getMissing : http.Request :=
  request "GET" "/missing.css" [("Accept-Encoding", "deflate")].

(** A request for a range of an entry. *)
Definition getRange : http.Request :=
  request "GET" "/LICENSE.txt"
    [("Accept-Encoding", "deflate"); ("Range", "bytes=0-9")].

(** The two entries of [archive]. *)
Definition licenseEntry : zip.File :=
  entry "LICENSE.txt" zip.Deflate licenseDeflated.

Definition unknownEntry : zip.File :=
  entry "unknown" zip.Deflate licenseDeflated.

(** A wrapper opened on ["unknown"] and read up to byte 10, seen after the
    archive has become unreadable. *)
Definition staleFile : seekableFile :=
  {| File := {| zip.data := license; zip.pos := 10;
                zip.atMost := tenAtATime; zip.nopCloser := false;
                zip.closed := false; zip.closeErr := None |};
     zr := brokenArchive; name := "unknown" |}.

(** The same wrapper while the archive is readable. *)
Definition openFile : seekableFile :=
  {| File := File staleFile; zr := archive; name := "unknown" |}.


End demo.


(** * Notions the properties are stated with *)

(** The key as the specification words it: the path with one leading
    slash taken off, and ["index.html"] when nothing is left. *)
Definition specKey (path : string) : string :=
  let stripped :=
    match path with
    | String "/" rest => rest
    | _ => path
    end in
  match stripped with
  | EmptyString => "index.html"
  | _ => stripped
  end.

(** A header map that has Vary: Accept-Encoding and Accept-Ranges: none. *)
Definition announced (h : http.Header) : Prop :=
  "Accept-Encoding" ∈ http.Values "Vary" h
  /\ http.Values "Accept-Ranges" h = ["none"].

(** Position of the last Deflate entry named [k] among [files]. *)
Fixpoint lastDeflateIdx (k : string) (files : list zip.File) : option nat :=
  match files with
  | [] => None
  | f :: rest =>
      match lastDeflateIdx k rest with
      | Some d => Some (S d)
      | None =>
          if (zip.Method f =? zip.Deflate)%Z && String.eqb (zip.Name f) k
          then Some 0 else None
      end
  end.

(** [files[i]] is a Deflate entry named [k], and no Deflate entry after it
    has that name. *)
Definition lastDeflate (files : list zip.File) (k : string) (i : nat) : Prop :=
  exists f, files !! i = Some f /\ zip.Name f = k /\ zip.Method f = zip.Deflate
    /\ forall j f', i < j -> files !! j = Some f' -> zip.Name f' = k ->
         zip.Method f' <> zip.Deflate.

(** The entry and its raw stream when the three tests of the closure let a
    request through: the routing test, the lookup in [m], [OpenRaw]. *)
Definition fastPath (z : zip.Reader) (r : http.Request)
  : option (zip.File * io.SectionReader) :=
  if ineligible r then None
  else match deflateIndex z !! lookupKey r with
       | None => None
       | Some i =>
           match zip.Files z !! i with
           | None => None
           | Some zf =>
               match zip.OpenRaw zf with
               | Err _ => None
               | Ok rd => Some (zf, rd)
               end
           end
       end.


(** * Further notions *)

(** The calls a holder of a [*seekableFile] can make, and the wrapper
    after a sequence of them. *)
Inductive fileOp : Type :=
| opRead (n : nat)
| opSeek (offset whence : Z)
| opClose.

Definition applyOp (f : seekableFile) (o : fileOp) : seekableFile :=
  match o with
  | opRead n => (seekableFile_Read n f).2
  | opSeek offset whence => (seekableFile_Seek f offset whence).2
  | opClose => (seekableFile_Close f).2
  end.

Definition applyOps (ops : list fileOp) (f : seekableFile) : seekableFile :=
  fold_left applyOp ops f.

(** The header fields the closure of [Handler] writes to. *)
Definition handlerFields : list string :=
  ["Vary"; "Accept-Ranges"; "Content-Type"; "Content-Length";
   "Content-Encoding"; "Last-Modified"].

(** A response to which a middleware has added Vary: Origin and a Server
    field before the handler runs. *)
Definition behindMiddleware : http.ResponseWriter :=
  {| http.RespHeader :=
       list_to_map [("Vary", ["Origin"]); ("Server", ["zipserver"])];
     http.sent := None; http.Body := [] |}.

(** A file that holds the bytes [d] from where it stands: a [Read] into a
    buffer that is not empty delivers the next bytes of [d], at least one
    and no more than the buffer holds, and reports the end with [io.EOF],
    either with the last bytes or by a read of its own after them. *)
#[warnings="-register-all"] Inductive Delivers {F : Type} `{fs.File F} : F -> bytes -> Prop :=
| Delivers_end (f : F) :
    (forall n, 0 < n -> exists f', fs.Read n f = ([], Some io.EOF, f')) ->
    Delivers f []
| Delivers_more (f : F) (d : bytes) :
    d <> [] ->
    (forall n, 0 < n -> exists k err f',
        fs.Read n f = (take k d, err, f')
        /\ 0 < k <= n /\ k <= length d
        /\ (err = None /\ Delivers f' (drop k d)
            \/ err = Some io.EOF /\ k = length d)) ->
    Delivers f d.
(** * Sanity checks of the embedding on concrete values *)

Example path_Ext_txt : path_Ext "docs/LICENSE.txt" = ".txt".
Proof. reflexivity. Qed.

Example path_Ext_dir_dot : path_Ext "v1.2/unknown" = "".
Proof. reflexivity. Qed.

Example FormatUint_0 : strconv_FormatUint 0 = "0".
Proof. reflexivity. Qed.

Example FormatUint_1234 : strconv_FormatUint 1234 = "1234".
Proof. reflexivity. Qed.

Example TrimPrefix_once : strings_TrimPrefix "//a" "/" = "/a".
Proof. reflexivity. Qed.

Example Format_epoch :
  time.Format_TimeFormat (time.mkTime 0 0) = "Thu, 01 Jan 1970 00:00:00 GMT".
Proof. reflexivity. Qed.

(** Go's reference instant, 15:04:05 on 2 January 2006 at UTC-7. *)
Example Format_reference_utc :
  time.Format_TimeFormat (time.UTC (time.mkTime 1136239445 (-25200)))
  = "Mon, 02 Jan 2006 22:04:05 GMT".
Proof. reflexivity. Qed.

Example Format_reference_local :
  time.Format_TimeFormat (time.mkTime 1136239445 (-25200))
  = "Mon, 02 Jan 2006 15:04:05 GMT".
Proof. reflexivity. Qed.

Example Format_leap_day :
  time.Format_TimeFormat (time.mkTime 951782400 0)
  = "Tue, 29 Feb 2000 00:00:00 GMT".
Proof. reflexivity. Qed.

Example Format_before_epoch :
  time.Format_TimeFormat (time.mkTime (-1) 0)
  = "Wed, 31 Dec 1969 23:59:59 GMT".
Proof. reflexivity. Qed.

(** The first instant a ZIP entry's DOS time stamp can hold. *)
Example Format_dos_epoch :
  time.Format_TimeFormat (time.mkTime 315532800 0)
  = "Tue, 01 Jan 1980 00:00:00 GMT".
Proof. reflexivity. Qed.

Example Format_end_of_year :
  time.Format_TimeFormat (time.mkTime 1735689599 0)
  = "Tue, 31 Dec 2024 23:59:59 GMT".
Proof. reflexivity. Qed.

Example path_Ext_hidden : path_Ext "a/.profile" = ".profile".
Proof. reflexivity. Qed.

Example Contains_deflate :
  strings_Contains "gzip, deflate, br" "deflate" = true
  /\ strings_Contains "gzip, br" "deflate" = false
  /\ strings_Contains "x-deflated" "deflate" = true.
Proof. by vm_compute. Qed.

(** ** The tests of the package, evaluated on the embedding *)

(** [TestHandler]: status 200, Vary, Content-Encoding, Content-Type, and a
    body that inflates to the file. *)
Example TestHandler :
  exists w,
    Handler (lib := demo.lib) demo.archive demo.recorder demo.getLicense = Some w
    /\ fst <$> http.sent w = Some 200%Z
    /\ http.Get "Vary" (http.RespHeader w) = "Accept-Encoding"
    /\ http.Get "Content-Encoding" (http.RespHeader w) = "deflate"
    /\ http.Get "Content-Type" (http.RespHeader w) = "text/plain; charset=utf-8"
    /\ demo.inflateStored (http.Body w) = Some demo.license.
Proof. eexists. split; [vm_compute; reflexivity|]. by vm_compute. Qed.

(** [TestHandler_seekableFile]: no Accept-Encoding, a name without
    extension; status 200, Vary, the sniffed Content-Type, and the file
    itself as the body. *)
Example TestHandler_seekableFile :
  demo.TypeByExtension (path_Ext "unknown") = ""
  /\ exists w,
       Handler (lib := demo.lib) demo.archive demo.recorder demo.getUnknown = Some w
       /\ fst <$> http.sent w = Some 200%Z
       /\ http.Get "Vary" (http.RespHeader w) = "Accept-Encoding"
       /\ http.Get "Content-Type" (http.RespHeader w) = "text/plain; charset=utf-8"
       /\ http.Get "Content-Encoding" (http.RespHeader w) = ""
       /\ http.Body w = demo.license.
Proof.
  split; [reflexivity|]. eexists. split; [vm_compute; reflexivity|].
  by vm_compute.
Qed.

(** What [seekableFS] is for: on the archive itself the file server cannot
    go back to the start of ["unknown"] after sniffing it. *)
Example srv_cannot_rewind :
  exists w,
    srv (lib := demo.lib) demo.archive demo.recorder demo.getUnknown = Some w
    /\ fst <$> http.sent w = Some 500%Z.
Proof. eexists. split; [vm_compute; reflexivity|]. by vm_compute. Qed.

(** On the fallback path the header map is the file server's in the end:
    this one replaces the handler's Accept-Ranges by its own. *)
Example fallback_Accept_Ranges :
  exists w,
    Handler (lib := demo.lib) demo.archive demo.recorder demo.getUnknown = Some w
    /\ http.Values "Accept-Ranges" (http.RespHeader w) = ["bytes"].
Proof. eexists. split; [vm_compute; reflexivity|]. by vm_compute. Qed.

(** The index of an archive with a repeated name: the last Deflate entry
    of the name, and no key for a name without Deflate entry. *)
Example deflateIndex_duplicates :
  deflateIndex demo.duplicates !! "a.css" = Some 2
  /\ deflateIndex demo.duplicates !! "b.css" = None
  /\ size (deflateIndex demo.duplicates) = 1.
Proof. by vm_compute. Qed.

Example lookupKey_root :
  lookupKey (demo.request "GET" "/" []) = "index.html"
  /\ lookupKey (demo.request "GET" "//a" []) = "/a"
  /\ lookupKey (demo.request "GET" "a/b" []) = "a/b".
Proof. by vm_compute. Qed.

Example conjureContentType_by_name :
  conjureContentType (lib := demo.lib) demo.licenseEntry
  = "text/plain; charset=utf-8".
Proof. reflexivity. Qed.

Example conjureContentType_unreadable :
  conjureContentType (lib := demo.lib)
    (demo.unreadable (demo.entry "unknown" zip.Deflate demo.licenseDeflated))
  = "application/octet-stream".
Proof. reflexivity. Qed.

(** One [Read] is not [io.ReadFull]: a buffer of 512 bytes gets the ten
    bytes that the decompressor has at hand. *)
Example Read_short :
  (seekableFile_Read 512 demo.openFile).1.1
  = take 10 (drop 10 demo.license).
Proof. reflexivity. Qed.

(** [Seek]: back to the start; refused for another offset or whence. *)
Example Seek_rewinds :
  seekableFile_Seek demo.openFile 0 io.SeekStart
  = (0%Z, None,
     {| File := {| zip.data := demo.license; zip.pos := 0;
                   zip.atMost := demo.tenAtATime; zip.nopCloser := false;
                   zip.closed := false; zip.closeErr := None |};
        zr := demo.archive; name := "unknown" |}).
Proof. reflexivity. Qed.

Example Seek_refuses_offset :
  seekableFile_Seek demo.openFile 5 io.SeekStart
  = (0%Z, Some errArbitrarySeek, demo.openFile).
Proof. reflexivity. Qed.

Example Seek_refuses_whence :
  seekableFile_Seek demo.openFile 0 io.SeekEnd
  = (0%Z, Some errArbitrarySeek, demo.openFile).
Proof. reflexivity. Qed.

(** * Properties *)

(** ** strings *)

Lemma strings_HasPrefix_spec (s prefix : string) :
  strings_HasPrefix s prefix = true <-> exists rest, s = prefix ++ rest.
Proof.
  revert s. induction prefix as [|p prefix IH]; intros s; simpl.
  - split; [intros _; by exists s | done].
  - destruct s as [|c s].
    + split; [done | intros [rest Hrest]; discriminate].
    + destruct (Ascii.eqb_spec c p) as [->|Hne].
      * rewrite IH. split; intros [rest Hrest]; exists rest.
        -- by rewrite Hrest.
        -- by injection Hrest.
      * split; [done | intros [rest Hrest]]. injection Hrest; intros; done.
Qed.

Lemma strings_Contains_unfold (s substr : string) :
  strings_Contains s substr =
  if strings_HasPrefix s substr then true
  else match s with
       | EmptyString => false
       | String _ s' => strings_Contains s' substr
       end.
Proof. by destruct s. Qed.

(** [strings.Contains] holds exactly of the strings that have [substr]
    somewhere inside. *)
Lemma strings_Contains_spec (s substr : string) :
  strings_Contains s substr = true
  <-> exists before after, s = before ++ substr ++ after.
Proof.
  split.
  - induction s as [|c s IH]; rewrite strings_Contains_unfold;
      destruct (strings_HasPrefix _ substr) eqn:Hp; try done.
    + apply strings_HasPrefix_spec in Hp as [rest ->]. by exists "", rest.
    + intros _. apply strings_HasPrefix_spec in Hp as [rest ->]. by exists "", rest.
    + intros Hc. destruct (IH Hc) as (before & after & ->).
      by exists (String c before), after.
  - intros (before & after & ->).
    induction before as [|c before IH]; rewrite strings_Contains_unfold.
    + simpl. replace (strings_HasPrefix _ _) with true; [done|].
      symmetry. apply strings_HasPrefix_spec. by exists after.
    + destruct (strings_HasPrefix _ substr); [done | exact IH].
Qed.

(** The decimal text determines the number: a Content-Length written by
    [strconv.FormatUint] reads back as the size it was written from. *)
Lemma strconv_FormatUint_inj (n m : N) :
  strconv_FormatUint n = strconv_FormatUint m -> n = m.
Proof.
  unfold strconv_FormatUint. intros Heq.
  apply (f_equal NilEmpty.uint_of_string) in Heq.
  rewrite !NilEmpty.usu in Heq. injection Heq as Heq.
  apply (f_equal N.of_uint) in Heq.
  by rewrite !DecimalN.Unsigned.of_to in Heq.
Qed.

(** The raw stream of an entry: the first [CompressedSize64] bytes the
    archive holds from the entry's body offset on. *)
Lemma OpenRaw_bytes (zf : zip.File) (rd : io.SectionReader) :
  zip.OpenRaw zf = Ok rd ->
  exists stored, zip.body zf = Ok stored
    /\ io.unread rd = take (N.to_nat (zip.CompressedSize64 zf)) stored.
Proof.
  unfold zip.OpenRaw. destruct (zip.body zf) as [stored|]; [|done].
  intros [= <-]. by exists stored.
Qed.

(** In an archive that is not cut short, the raw stream has exactly
    [CompressedSize64] bytes. *)
Lemma OpenRaw_length (zf : zip.File) (rd : io.SectionReader) (stored : bytes) :
  zip.OpenRaw zf = Ok rd -> zip.body zf = Ok stored ->
  (zip.CompressedSize64 zf <= N.of_nat (length stored))%N ->
  N.of_nat (length (io.unread rd)) = zip.CompressedSize64 zf.
Proof.
  intros Hraw Hbody Hsize.
  destruct (OpenRaw_bytes zf rd Hraw) as (stored' & Hbody' & ->).
  rewrite Hbody in Hbody'. injection Hbody' as <-.
  rewrite length_take. lia.
Qed.

(** [t.UTC().Format(http.TimeFormat)] is a function of the instant alone. *)
Lemma Format_UTC_instant (t1 t2 : time.Time) :
  time.unixSec t1 = time.unixSec t2 ->
  time.Format_TimeFormat (time.UTC t1) = time.Format_TimeFormat (time.UTC t2).
Proof. unfold time.UTC. by intros ->. Qed.

(** ** The key of a request *)

Lemma strings_TrimPrefix_slash (path : string) :
  strings_TrimPrefix path "/" =
  match path with
  | String "/" rest => rest
  | _ => path
  end.
Proof.
  unfold strings_TrimPrefix. destruct path as [|c rest]; [done|]. simpl.
  destruct (Ascii.eqb_spec c "/") as [->|Hne]; [done|].
  destruct c as [[] [] [] [] [] [] [] []]; try done.
Qed.

Lemma lookupKey_specKey (r : http.Request) :
  lookupKey r = specKey (http.URL_Path r).
Proof.
  unfold lookupKey, specKey. rewrite strings_TrimPrefix_slash.
  by destruct (match http.URL_Path r with String "/" rest => rest | _ => _ end).
Qed.

(** ** http.Header *)

Lemma Get_Set_eq (key value : string) (h : http.Header) :
  http.Get key (http.Set_ key value h) = value.
Proof. unfold http.Get, http.Set_. by rewrite lookup_insert_eq. Qed.

Lemma Get_Set_ne (key key' value : string) (h : http.Header) :
  key' <> key -> http.Get key (http.Set_ key' value h) = http.Get key h.
Proof. intros Hne. unfold http.Get, http.Set_. by rewrite lookup_insert_ne. Qed.

Lemma Values_Set_eq (key value : string) (h : http.Header) :
  http.Values key (http.Set_ key value h) = [value].
Proof. unfold http.Values, http.Set_. by rewrite lookup_insert_eq. Qed.

Lemma Values_Set_ne (key key' value : string) (h : http.Header) :
  key' <> key -> http.Values key (http.Set_ key' value h) = http.Values key h.
Proof. intros Hne. unfold http.Values, http.Set_. by rewrite lookup_insert_ne. Qed.

Lemma Values_Add_eq (key value : string) (h : http.Header) :
  http.Values key (http.Add key value h) = (http.Values key h ++ [value])%list.
Proof. unfold http.Values, http.Add. by rewrite lookup_insert_eq. Qed.

Lemma announced_Set (key value : string) (h : http.Header) :
  key <> "Vary" -> key <> "Accept-Ranges" ->
  announced h -> announced (http.Set_ key value h).
Proof.
  intros H1 H2 [Hv Ha]. split.
  - by rewrite Values_Set_ne.
  - by rewrite Values_Set_ne.
Qed.

Lemma announced_announce (w : http.ResponseWriter) :
  announced (http.RespHeader (announce w)).
Proof.
  unfold announce, announced. simpl. split.
  - rewrite Values_Set_ne by done. rewrite Values_Add_eq. set_solver.
  - apply Values_Set_eq.
Qed.

(** ** io.CopyBuffer *)

Lemma RespHeader_WriteHeader (code : Z) (w : http.ResponseWriter) :
  http.RespHeader (http.WriteHeader code w) = http.RespHeader w.
Proof. by destruct w as [h [s|] b]. Qed.

Lemma Body_WriteHeader (code : Z) (w : http.ResponseWriter) :
  http.Body (http.WriteHeader code w) = http.Body w.
Proof. by destruct w as [h [s|] b]. Qed.

(** With a buffer of at least one byte and a round per unread byte to
    spare, the loop drains the reader: every unread byte is appended to the
    body, in order; the header map is not touched; the header block has
    gone out with status 200 unless it had gone out before or nothing was
    written. *)
Lemma CopyBuffer_loop_drains (fuel n : nat) (w : http.ResponseWriter)
    (rd : io.SectionReader) :
  0 < n -> length (io.unread rd) < fuel ->
  let w' := (CopyBuffer_loop fuel n w rd).1 in
  http.Body w' = (http.Body w ++ io.unread rd)%list
  /\ http.RespHeader w' = http.RespHeader w
  /\ http.sent w' =
       match io.unread rd with
       | [] => http.sent w
       | _ => http.sent (http.WriteHeader http.StatusOK w)
       end
  /\ io.unread (CopyBuffer_loop fuel n w rd).2 = [].
Proof.
  intros Hn. revert w rd.
  induction fuel as [|fuel IH]; intros w [u] Hfuel; simpl in *; [lia|].
  unfold io.Read; simpl. destruct u as [|b u]; simpl.
  - by rewrite app_nil_r.
  - destruct n as [|n]; [lia|]. simpl.
    set (w1 := http.Write (b :: take n u) w).
    destruct (IH w1 {| io.unread := drop n u |}) as (HB & HH & HS & HU).
    { simpl in *. rewrite length_drop. lia. }
    simpl in *. repeat split.
    + rewrite HB. unfold w1. simpl. rewrite Body_WriteHeader.
      rewrite <- app_assoc. simpl. by rewrite take_drop.
    + rewrite HH. unfold w1. simpl. apply RespHeader_WriteHeader.
    + rewrite HS. unfold w1.
      destruct (drop n u); [done|]. by destruct w as [h [s|] bd].
    + exact HU.
Qed.

(** ** The index of Deflate entries *)

Lemma lastDeflateIdx_None (k : string) (files : list zip.File) :
  lastDeflateIdx k files = None
  <-> forall j f, files !! j = Some f -> zip.Name f = k ->
        zip.Method f <> zip.Deflate.
Proof.
  induction files as [|f rest IH]; simpl.
  - split; [intros _ j f' Hj; by rewrite lookup_nil in Hj | done].
  - destruct (lastDeflateIdx k rest) as [d|].
    + split; [done|]. intros Hall. exfalso.
      assert (Some d = None) as Hd; [|done].
      apply IH. intros j f' Hj. apply (Hall (S j) f' Hj).
    + destruct (Z.eqb_spec (zip.Method f) zip.Deflate) as [Hm|Hm];
        destruct (String.eqb_spec (zip.Name f) k) as [Hk|Hk]; simpl.
      * split; [done|]. intros Hall. by destruct (Hall 0 f).
      * split; [intros _|done]. intros [|j] f' Hj; simplify_eq/=; [done|].
        by apply (proj1 IH eq_refl j).
      * split; [intros _|done]. intros [|j] f' Hj; simplify_eq/=; [done|].
        by apply (proj1 IH eq_refl j).
      * split; [intros _|done]. intros [|j] f' Hj; simplify_eq/=; [done|].
        by apply (proj1 IH eq_refl j).
Qed.

Lemma lastDeflateIdx_Some (k : string) (files : list zip.File) (d : nat) :
  lastDeflateIdx k files = Some d <-> lastDeflate files k d.
Proof.
  revert d. induction files as [|f rest IH]; intros d; simpl.
  - split; [done|]. intros (f & Hf & _). by rewrite lookup_nil in Hf.
  - destruct (lastDeflateIdx k rest) as [d'|] eqn:Hrest.
    + split.
      * intros [= <-]. destruct (proj1 (IH d') eq_refl) as (g & Hg & Hk & Hm & Hlast).
        exists g. repeat split; try done.
        intros [|j] f' Hlt Hj; [lia|]. apply (Hlast j f'); [lia | done].
      * intros (g & Hg & Hk & Hm & Hlast). destruct d as [|d].
        -- exfalso. destruct (proj1 (IH d') eq_refl) as (g' & Hg' & Hk' & Hm' & _).
           by apply (Hlast (S d') g'); [lia| | |].
        -- f_equal. assert (Some d' = Some d) as [= ->]; [|done].
           apply IH. exists g. repeat split; try done.
           intros j f' Hlt Hj. apply (Hlast (S j) f'); [lia | done].
    + pose proof (proj1 (lastDeflateIdx_None k rest) Hrest) as Hnone.
      destruct (Z.eqb_spec (zip.Method f) zip.Deflate) as [Hm|Hm];
        destruct (String.eqb_spec (zip.Name f) k) as [Hk|Hk]; simpl.
      * split.
        -- intros [= <-]. exists f. repeat split; try done.
           intros [|j] f' Hlt Hj; [lia|]. by apply (Hnone j).
        -- intros (g & Hg & Hk' & Hm' & _). destruct d as [|d]; [done|].
           by destruct (Hnone d g).
      * split; [done|]. intros (g & Hg & Hk' & Hm' & _).
        destruct d as [|d]; simplify_eq/=. by destruct (Hnone d g).
      * split; [done|]. intros (g & Hg & Hk' & Hm' & _).
        destruct d as [|d]; simplify_eq/=. by destruct (Hnone d g).
      * split; [done|]. intros (g & Hg & Hk' & Hm' & _).
        destruct d as [|d]; simplify_eq/=. by destruct (Hnone d g).
Qed.

(** What the loop leaves under a key: the position of the last Deflate
    entry of that name, counted from [i], or what [m] had. *)
Lemma indexFrom_lookup (files : list zip.File) (i : nat)
    (m : gmap string nat) (k : string) :
  indexFrom i files m !! k =
  match lastDeflateIdx k files with
  | Some d => Some (i + d)
  | None => m !! k
  end.
Proof.
  revert i m. induction files as [|f rest IH]; intros i m; simpl; [done|].
  rewrite IH. destruct (lastDeflateIdx k rest) as [d|]; [f_equal; lia|].
  destruct (Z.eqb_spec (zip.Method f) zip.Deflate) as [Hm|Hm]; simpl; [|done].
  destruct (String.eqb_spec (zip.Name f) k) as [Hk|Hk].
  - rewrite Hk, lookup_insert_eq. f_equal; lia.
  - by rewrite lookup_insert_ne.
Qed.

Lemma deflateIndex_lookup (z : zip.Reader) (k : string) :
  deflateIndex z !! k = lastDeflateIdx k (zip.Files z).
Proof.
  unfold deflateIndex. rewrite indexFrom_lookup, lookup_empty.
  by destruct (lastDeflateIdx k (zip.Files z)).
Qed.

Lemma deflateIndex_nonempty (z : zip.Reader) (k : string) (i : nat) :
  deflateIndex z !! k = Some i -> Nat.eqb (size (deflateIndex z)) 0 = false.
Proof.
  intros Hk. apply Nat.eqb_neq. intros Hsize.
  apply map_size_empty_iff in Hsize. by rewrite Hsize, lookup_empty in Hk.
Qed.

(** [len(m) == 0] holds exactly of the archives without a Deflate entry. *)
Lemma deflateIndex_empty_iff (z : zip.Reader) :
  Nat.eqb (size (deflateIndex z)) 0 = true
  <-> forall i f, zip.Files z !! i = Some f -> zip.Method f <> zip.Deflate.
Proof.
  rewrite Nat.eqb_eq, map_size_empty_iff. split.
  - intros Hempty i f Hf Hm.
    assert (deflateIndex z !! zip.Name f = None) as Hnone
      by by rewrite Hempty, lookup_empty.
    rewrite deflateIndex_lookup, lastDeflateIdx_None in Hnone.
    by apply (Hnone i f).
  - intros Hnone. apply map_empty. intros k.
    rewrite deflateIndex_lookup, lastDeflateIdx_None.
    intros j f Hf _. by apply (Hnone j f).
Qed.

(** An index the map holds is an index into [z.File]: the closure's
    [z.File[i]] stays in range. *)
Lemma deflateIndex_in_range (z : zip.Reader) (k : string) (i : nat) :
  deflateIndex z !! k = Some i ->
  exists zf, zip.Files z !! i = Some zf /\ zip.Name zf = k
             /\ zip.Method zf = zip.Deflate.
Proof.
  rewrite deflateIndex_lookup, lastDeflateIdx_Some.
  intros (f & Hf & Hk & Hm & _). by exists f.
Qed.

(** ** The routing test *)

Lemma ineligible_false_iff (r : http.Request) :
  ineligible r = false
  <-> http.Method r = http.MethodGet
      /\ http.Get "Range" (http.ReqHeader r) = ""
      /\ strings_Contains (http.Get "Accept-Encoding" (http.ReqHeader r))
           "deflate" = true.
Proof.
  unfold ineligible.
  destruct (String.eqb_spec (http.Method r) http.MethodGet) as [Hm|Hm];
    destruct (String.eqb_spec (http.Get "Range" (http.ReqHeader r)) "") as [Hr|Hr];
    destruct (strings_Contains _ "deflate"); simpl; intuition congruence.
Qed.

Lemma ineligible_true_iff (r : http.Request) :
  ineligible r = true
  <-> http.Method r <> http.MethodGet
      \/ http.Get "Range" (http.ReqHeader r) <> ""
      \/ strings_Contains (http.Get "Accept-Encoding" (http.ReqHeader r))
           "deflate" = false.
Proof.
  unfold ineligible.
  destruct (String.eqb_spec (http.Method r) http.MethodGet) as [Hm|Hm];
    destruct (String.eqb_spec (http.Get "Range" (http.ReqHeader r)) "") as [Hr|Hr];
    destruct (strings_Contains _ "deflate"); simpl; intuition congruence.
Qed.

(** ** The closure of Handler, case by case *)

Section Routing.

Context {lib : Collaborators}.

(** [Handler] is its parts put together. *)
Lemma Handler_parts (z : zip.Reader) :
  Handler z = if Nat.eqb (size (deflateIndex z)) 0 then srv z else handlerFunc z.
Proof. reflexivity. Qed.

Lemma Handler_empty_index (z : zip.Reader) :
  Nat.eqb (size (deflateIndex z)) 0 = true -> Handler z = srv z.
Proof. rewrite Handler_parts. by intros ->. Qed.

Lemma Handler_handlerFunc (z : zip.Reader) :
  Nat.eqb (size (deflateIndex z)) 0 = false ->
  Handler z = handlerFunc z.
Proof. rewrite Handler_parts. by intros ->. Qed.

Lemma handlerFunc_cases (z : zip.Reader) (w : http.ResponseWriter)
    (r : http.Request) :
  handlerFunc z w r =
  match fastPath z r with
  | Some (zf, rd) => Some (serveRaw zf rd (announce w))
  | None => fallbackServe z (announce w) r
  end.
Proof.
  unfold handlerFunc, fastPath. destruct (ineligible r); [done|].
  destruct (deflateIndex z !! lookupKey r) as [i|] eqn:Hi; [|done].
  destruct (deflateIndex_in_range z _ i Hi) as (zf & -> & _).
  by destruct (zip.OpenRaw zf).
Qed.

(** The header map and the body after [serveRaw]. *)
Lemma serveRaw_header (zf : zip.File) (rd : io.SectionReader)
    (w : http.ResponseWriter) :
  http.RespHeader (serveRaw zf rd w) =
  http.Set_ "Last-Modified" (time.Format_TimeFormat (time.UTC (zip.Modified zf)))
    (http.Set_ "Content-Encoding" "deflate"
       (http.Set_ "Content-Length" (strconv_FormatUint (zip.CompressedSize64 zf))
          (http.Set_ "Content-Type" (conjureContentType zf) (http.RespHeader w)))).
Proof.
  unfold serveRaw, io_CopyBuffer.
  match goal with |- context [CopyBuffer_loop ?fu ?n ?w0 ?rd0] =>
    destruct (CopyBuffer_loop_drains fu n w0 rd0) as (_ & -> & _)
  end; [unfold bufPool_Get; lia | lia | done].
Qed.

Lemma serveRaw_body (zf : zip.File) (rd : io.SectionReader)
    (w : http.ResponseWriter) :
  http.Body (serveRaw zf rd w) = (http.Body w ++ io.unread rd)%list.
Proof.
  unfold serveRaw, io_CopyBuffer.
  match goal with |- context [CopyBuffer_loop ?fu ?n ?w0 ?rd0] =>
    destruct (CopyBuffer_loop_drains fu n w0 rd0) as (-> & _)
  end; [unfold bufPool_Get; lia | lia | done].
Qed.

(** The header block goes out with the first chunk, after the four fields
    are set: it is the final header map. *)
Lemma serveRaw_sent (zf : zip.File) (rd : io.SectionReader)
    (w : http.ResponseWriter) :
  http.sent w = None -> io.unread rd <> [] ->
  http.sent (serveRaw zf rd w)
  = Some (http.StatusOK, http.RespHeader (serveRaw zf rd w)).
Proof.
  intros Hsent Hrd. rewrite serveRaw_header.
  unfold serveRaw, io_CopyBuffer.
  match goal with |- context [CopyBuffer_loop ?fu ?n ?w0 ?rd0] =>
    destruct (CopyBuffer_loop_drains fu n w0 rd0) as (_ & _ & -> & _)
  end; [unfold bufPool_Get; lia | lia |].
  destruct (io.unread rd); [done|]. unfold http.WriteHeader. simpl.
  by rewrite Hsent.
Qed.

End Routing.

(** * The handler *)

(** Reads a field back through the [Set] calls that came after it. *)
Ltac header_lookup :=
  repeat (rewrite Get_Set_ne by done); rewrite Get_Set_eq.

Section Claims.

Context {lib : Collaborators}.

(** C1: a GET request without Range whose Accept-Encoding contains
    ["deflate"], whose key is in the index and whose entry opens raw, gets
    Content-Type from [conjureContentType], Content-Length equal to the
    entry's compressed size in decimal, Content-Encoding ["deflate"],
    Last-Modified equal to the entry's modification time as an HTTP date in
    UTC, and the bytes of the raw stream appended to the body unchanged;
    on a response that has not started, the header block goes out with
    status 200 and these fields. *)
Theorem C1_fast_path_response (z : zip.Reader) (w : http.ResponseWriter)
    (r : http.Request) (i : nat) (zf : zip.File) (rd : io.SectionReader) :
  http.Method r = http.MethodGet ->
  http.Get "Range" (http.ReqHeader r) = "" ->
  strings_Contains (http.Get "Accept-Encoding" (http.ReqHeader r)) "deflate" = true ->
  deflateIndex z !! lookupKey r = Some i ->
  zip.Files z !! i = Some zf ->
  zip.OpenRaw zf = Ok rd ->
  exists w',
    Handler z w r = Some w'
    /\ http.Get "Content-Type" (http.RespHeader w') = conjureContentType zf
    /\ http.Get "Content-Length" (http.RespHeader w')
       = strconv_FormatUint (zip.CompressedSize64 zf)
    /\ http.Get "Content-Encoding" (http.RespHeader w') = "deflate"
    /\ http.Get "Last-Modified" (http.RespHeader w')
       = time.Format_TimeFormat (time.UTC (zip.Modified zf))
    /\ http.Body w' = (http.Body w ++ io.unread rd)%list
    /\ (http.sent w = None -> io.unread rd <> [] ->
        http.sent w' = Some (http.StatusOK, http.RespHeader w')).
Proof.
  intros Hm Hr Hc Hi Hzf Hrd.
  assert (ineligible r = false) as Hel by by apply ineligible_false_iff.
  rewrite Handler_handlerFunc by by eapply deflateIndex_nonempty.
  rewrite handlerFunc_cases. unfold fastPath. rewrite Hel, Hi, Hzf, Hrd.
  eexists. split; [done|].
  rewrite serveRaw_header, serveRaw_body.
  repeat split.
  - by header_lookup.
  - by header_lookup.
  - by header_lookup.
  - by header_lookup.
  - intros Hsent Hne. rewrite serveRaw_sent by done. by rewrite serveRaw_header.
Qed.

(** C2, as amended: a request that is not a GET, or has a non-empty Range
    header, or has no ["deflate"] in Accept-Encoding, is answered by the
    fallback server and by nothing else.  When the archive has a Deflate
    entry, the response is [fallbackServe]'s on a response to which Vary
    and Accept-Ranges have been added; when it has none, the handler is
    the file server [srv] itself, and nothing is added. *)
Theorem C2_ineligible_delegates (z : zip.Reader) (w : http.ResponseWriter)
    (r : http.Request) :
  http.Method r <> http.MethodGet
  \/ http.Get "Range" (http.ReqHeader r) <> ""
  \/ strings_Contains (http.Get "Accept-Encoding" (http.ReqHeader r)) "deflate" = false ->
  Handler z w r =
  if Nat.eqb (size (deflateIndex z)) 0 then srv z w r
  else fallbackServe z (announce w) r.
Proof.
  intros Hin. apply ineligible_true_iff in Hin.
  destruct (Nat.eqb (size (deflateIndex z)) 0) eqn:Hsize.
  - by rewrite Handler_empty_index.
  - rewrite Handler_handlerFunc, handlerFunc_cases by done.
    unfold fastPath. by rewrite Hin.
Qed.

(** C3, as amended: when the archive has at least one Deflate entry, every
    call adds Vary: Accept-Encoding and sets Accept-Ranges: none before
    anything else.  A response served from the raw stream carries both in
    its header map; otherwise the response is [fallbackServe]'s, on a
    response that carries both.  So every response carries both, provided
    the file server leaves the two fields as it finds them. *)
Theorem C3_headers_announced (z : zip.Reader) (w : http.ResponseWriter)
    (r : http.Request) :
  forall (i : nat) (f : zip.File),
  zip.Files z !! i = Some f -> zip.Method f = zip.Deflate ->
  announced (http.RespHeader (announce w))
  /\ match fastPath z r with
     | Some _ =>
         exists w', Handler z w r = Some w' /\ announced (http.RespHeader w')
     | None => Handler z w r = fallbackServe z (announce w) r
     end
  /\ ((forall fsys w0 r0 w1,
         announced (http.RespHeader w0) ->
         http_FileServer fsys w0 r0 = Some w1 ->
         announced (http.RespHeader w1)) ->
      forall w', Handler z w r = Some w' -> announced (http.RespHeader w')).
Proof.
  intros i f Hf Hdeflate.
  assert (Nat.eqb (size (deflateIndex z)) 0 = false) as Hsize.
  { apply not_true_is_false. rewrite deflateIndex_empty_iff.
    intros Hnone. by apply (Hnone i f). }
  split; [apply announced_announce|].
  rewrite Handler_handlerFunc, handlerFunc_cases by done.
  assert (forall zf rd, announced (http.RespHeader (serveRaw zf rd (announce w))))
    as Hraw.
  { intros zf rd. rewrite serveRaw_header.
    do 4 (apply announced_Set; [done | done |]). apply announced_announce. }
  destruct (fastPath z r) as [[zf rd]|]; split.
  - eexists. by split.
  - intros _ w' [= <-]. apply Hraw.
  - done.
  - intros Hkeeps w'. unfold fallbackServe, srvSeek0, srv.
    destruct (String.eqb _ ""); apply Hkeeps, announced_announce.
Qed.

(** C4: the index holds exactly the names of the Deflate entries of the
    archive; a key is mapped to the position of a Deflate entry of that
    name, the last one in archive order. *)
Theorem C4_index_invariant (z : zip.Reader) :
  (forall k, is_Some (deflateIndex z !! k)
     <-> exists i f, zip.Files z !! i = Some f /\ zip.Name f = k
                     /\ zip.Method f = zip.Deflate)
  /\ (forall k i, deflateIndex z !! k = Some i
        <-> lastDeflate (zip.Files z) k i).
Proof.
  split.
  - intros k. rewrite deflateIndex_lookup. split.
    + intros [i Hi]. apply lastDeflateIdx_Some in Hi as (f & Hf & Hk & Hm & _).
      by exists i, f.
    + intros (i & f & Hf & Hk & Hm).
      destruct (lastDeflateIdx k (zip.Files z)) eqn:Hnone; [done|].
      by destruct (proj1 (lastDeflateIdx_None _ _) Hnone i f).
  - intros k i. by rewrite deflateIndex_lookup, lastDeflateIdx_Some.
Qed.

(** C5: [conjureContentType] returns the type of the name's extension
    whenever that is not empty, whatever the entry holds; when it is empty
    and the entry opens, the sniffed type of what one [Read] into a buffer
    of 512 bytes delivers, which is the first [k] bytes of the decompressed
    entry for a [k] of at most 512 that is 0 only for an empty entry; when
    it is empty and the entry does not open,
    ["application/octet-stream"]. *)
Theorem C5_content_type (zf : zip.File) :
  let byExt := mime_TypeByExtension (path_Ext (zip.Name zf)) in
  (byExt <> "" -> conjureContentType zf = byExt)
  /\ (byExt = "" -> forall rc, zip.Open zf = Ok rc ->
      let k := Nat.min 512 (S (zip.burst zf 0)) in
      0 < k <= 512
      /\ (zip.Read 512 rc).1.1 = take k (zip.plain zf)
      /\ conjureContentType zf = http_DetectContentType (take k (zip.plain zf)))
  /\ (byExt = "" -> forall e, zip.Open zf = Err e ->
      conjureContentType zf = "application/octet-stream").
Proof.
  unfold conjureContentType. cbv zeta.
  destruct (String.eqb_spec (mime_TypeByExtension (path_Ext (zip.Name zf))) "")
    as [Hext|Hext]; cbn [negb].
  - split; [done|]. split; intros _.
    + intros rc Hopen. rewrite Hopen.
      unfold zip.Open in Hopen. destruct (zip.body zf); [|done].
      destruct (zip.hasDecompressor _); [|done]. injection Hopen as <-.
      split; [lia|]. unfold zip.Read.
      cbn [zip.closed zip.pos zip.data zip.atMost andb].
      rewrite drop_0. destruct (zip.plain zf); by rewrite ?take_nil.
    + intros e Hopen. by rewrite Hopen.
  - split; [done|]. split; intros Hempty; done.
Qed.

(** C7: the key of a request that passes the routing test is its path
    without one leading slash, ["index.html"] when that is empty; when the
    index has no such key, the response is the fallback server's
    ([fallbackServe] after the two header edits, or [srv] itself when the
    archive has no Deflate entry at all). *)
Theorem C7_key_and_miss (z : zip.Reader) (w : http.ResponseWriter)
    (r : http.Request) :
  http.Method r = http.MethodGet ->
  http.Get "Range" (http.ReqHeader r) = "" ->
  strings_Contains (http.Get "Accept-Encoding" (http.ReqHeader r)) "deflate" = true ->
  lookupKey r = specKey (http.URL_Path r)
  /\ (deflateIndex z !! specKey (http.URL_Path r) = None ->
      Handler z w r =
      if Nat.eqb (size (deflateIndex z)) 0 then srv z w r
      else fallbackServe z (announce w) r).
Proof.
  intros Hm Hr Hc. split; [apply lookupKey_specKey|]. intros Hmiss.
  destruct (Nat.eqb (size (deflateIndex z)) 0) eqn:Hsize.
  - by rewrite Handler_empty_index.
  - rewrite Handler_handlerFunc, handlerFunc_cases by done.
    unfold fastPath. rewrite lookupKey_specKey, Hmiss.
    by destruct (ineligible r).
Qed.

(** C8: when the key of a request is in the index and [OpenRaw] of the
    entry fails, the response is [fallbackServe]'s, whatever the error. *)
Theorem C8_raw_open_failure (z : zip.Reader) (w : http.ResponseWriter)
    (r : http.Request) (i : nat) (zf : zip.File) (e : error) :
  http.Method r = http.MethodGet ->
  http.Get "Range" (http.ReqHeader r) = "" ->
  strings_Contains (http.Get "Accept-Encoding" (http.ReqHeader r)) "deflate" = true ->
  deflateIndex z !! lookupKey r = Some i ->
  zip.Files z !! i = Some zf ->
  zip.OpenRaw zf = Err e ->
  Handler z w r = fallbackServe z (announce w) r.
Proof.
  intros Hm Hr Hc Hi Hzf Hraw.
  rewrite Handler_handlerFunc by by eapply deflateIndex_nonempty.
  rewrite handlerFunc_cases. unfold fastPath. rewrite Hi, Hzf, Hraw.
  by destruct (ineligible r).
Qed.

(** C10: the test on Accept-Encoding is a substring test.  A GET request
    without Range whose Accept-Encoding has ["deflate"] anywhere inside,
    whatever stands before and after, is served from the raw stream with
    Content-Encoding ["deflate"] when its key is in the index and the
    entry opens raw. *)
Theorem C10_substring_match (z : zip.Reader) (w : http.ResponseWriter)
    (r : http.Request) (i : nat) (zf : zip.File) (rd : io.SectionReader)
    (before after : string) :
  http.Method r = http.MethodGet ->
  http.Get "Range" (http.ReqHeader r) = "" ->
  http.Get "Accept-Encoding" (http.ReqHeader r) = before ++ "deflate" ++ after ->
  deflateIndex z !! lookupKey r = Some i ->
  zip.Files z !! i = Some zf ->
  zip.OpenRaw zf = Ok rd ->
  exists w',
    Handler z w r = Some w'
    /\ http.Get "Content-Encoding" (http.RespHeader w') = "deflate"
    /\ http.Body w' = (http.Body w ++ io.unread rd)%list.
Proof.
  intros Hm Hr Hae Hi Hzf Hrd.
  assert (ineligible r = false) as Hel.
  { apply ineligible_false_iff. repeat split; [done..|].
    apply strings_Contains_spec. by exists before, after. }
  rewrite Handler_handlerFunc by by eapply deflateIndex_nonempty.
  rewrite handlerFunc_cases. unfold fastPath. rewrite Hel, Hi, Hzf, Hrd.
  eexists. split; [done|]. rewrite serveRaw_header, serveRaw_body.
  split; [|done]. by header_lookup.
Qed.

(** [z.File[i]] never panics: an index taken from [m] is in range, so the
    handler panics only where the file server does. *)
Lemma Handler_index_in_range (z : zip.Reader) (w : http.ResponseWriter)
    (r : http.Request) :
  Handler z w r = None ->
  exists fsys w0, http_FileServer fsys w0 r = None.
Proof.
  rewrite Handler_parts.
  destruct (Nat.eqb (size (deflateIndex z)) 0); [by eexists _, _|].
  rewrite handlerFunc_cases. destruct (fastPath z r) as [[zf rd]|]; [done|].
  unfold fallbackServe, srvSeek0, srv.
  destruct (String.eqb _ ""); by eexists _, _.
Qed.

End Claims.

(** * seekableFile *)

(** [z.Open(name)] yields a reader that is open and stands at byte 0 of
    the decompressed stream of the entry that [name] resolves to. *)
Lemma ReaderOpen_fresh (z : zip.Reader) (path : string) (file : zip.entryReader) :
  zip.ReaderOpen z path = Ok file ->
  exists zf, zip.lookupName path (zip.Files z) = Some zf
    /\ file = {| zip.data := zip.plain zf; zip.pos := 0;
                 zip.atMost := zip.burst zf;
                 zip.nopCloser := (zip.Method zf =? zip.Store)%Z;
                 zip.closed := false; zip.closeErr := None |}.
Proof.
  unfold zip.ReaderOpen, zip.Open.
  destruct (zip.lookupName path (zip.Files z)) as [zf|]; [|done].
  destruct (zip.body zf); [|done].
  destruct (zip.hasDecompressor _); [|done].
  intros [= <-]. by exists zf.
Qed.



(** A reader without a close error to report closes without one. *)
Lemma Close_clean (rc : zip.entryReader) :
  zip.closeErr rc = None -> (zip.Close rc).1 = None.
Proof.
  intros Hclose. unfold zip.Close. cbn [fst]. rewrite Hclose.
  by destruct (zip.nopCloser rc || zip.closed rc).
Qed.

(** [Seek(0, io.SeekStart)], once the wrapped file has closed: the archive
    opens the entry again, and the wrapper takes the new reader or keeps
    the one it has closed. *)
Lemma Seek_start_reopens (f : seekableFile) :
  (zip.Close (File f)).1 = None ->
  seekableFile_Seek f 0 io.SeekStart
  = match zip.ReaderOpen (zr f) (name f) with
    | Err err =>
        (0%Z, Some err,
         {| File := (zip.Close (File f)).2; zr := zr f; name := name f |})
    | Ok file => (0%Z, None, {| File := file; zr := zr f; name := name f |})
    end.
Proof.
  unfold seekableFile_Seek. cbn [Z.eqb negb orb].
  change (0 =? io.SeekStart)%Z with true. cbn [negb].
  destruct (zip.Close (File f)) as [cerr closedFile]. cbn [fst snd].
  by intros ->.
Qed.

(** When the wrapped file does not close cleanly, [Seek(0, io.SeekStart)]
    returns the error of [Close] and does not open the entry again. *)
Lemma Seek_close_failure (f : seekableFile) (e : error) :
  (zip.Close (File f)).1 = Some e ->
  seekableFile_Seek f 0 io.SeekStart
  = (0%Z, Some e,
     {| File := (zip.Close (File f)).2; zr := zr f; name := name f |}).
Proof.
  unfold seekableFile_Seek. cbn [Z.eqb negb orb].
  change (0 =? io.SeekStart)%Z with true. cbn [negb].
  destruct (zip.Close (File f)) as [cerr closedFile]. cbn [fst snd].
  by intros ->.
Qed.

(** A wrapper from [seekableFS.Open] holds the archive, the name, and a
    reader that is open at byte 0 of the entry of that name. *)
Lemma seekableFS_Open_fresh (s : seekableFS) (path : string) (f : seekableFile) :
  seekableFS_Open s path = Ok f ->
  zr f = Reader s /\ name f = path
  /\ exists zf, zip.lookupName path (zip.Files (Reader s)) = Some zf
       /\ File f = {| zip.data := zip.plain zf; zip.pos := 0;
                      zip.atMost := zip.burst zf;
                      zip.nopCloser := (zip.Method zf =? zip.Store)%Z;
                      zip.closed := false; zip.closeErr := None |}.
Proof.
  unfold seekableFS_Open.
  destruct (zip.ReaderOpen (Reader s) path) as [file|] eqn:Hopen; [|done].
  intros [= <-]. destruct (ReaderOpen_fresh _ _ _ Hopen) as (zf & Hzf & ->).
  repeat split. by exists zf.
Qed.

(** While the archive stays as it was when [seekableFS.Open] made the
    wrapper, [Seek(0, io.SeekStart)] succeeds, however far the wrapper has
    been read, and puts the wrapper back into the state [Open] made. *)
Lemma Seek_start_after_Open (s : seekableFS) (path : string)
    (f g : seekableFile) :
  seekableFS_Open s path = Ok f ->
  zr g = zr f -> name g = name f -> zip.closeErr (File g) = None ->
  seekableFile_Seek g 0 io.SeekStart = (0%Z, None, f).
Proof.
  intros Hopen Hzr Hname Hclose.
  rewrite Seek_start_reopens by by apply Close_clean.
  rewrite Hzr, Hname. unfold seekableFS_Open in Hopen.
  destruct (zip.ReaderOpen (Reader s) path) as [file|] eqn:Hfile; [|done].
  injection Hopen as <-. cbn [zr name]. by rewrite Hfile.
Qed.



(** * The claims on the archive of the tests *)

(** C1 at [TestHandler]: the request for ["/LICENSE.txt"] that accepts
    ["gzip, deflate, br"]. *)
Lemma C1_witness :
  exists w',
    Handler (lib := demo.lib) demo.archive demo.recorder demo.getLicense = Some w'
    /\ http.Get "Content-Type" (http.RespHeader w') = "text/plain; charset=utf-8"
    /\ http.Get "Content-Length" (http.RespHeader w') = "33"
    /\ http.Get "Content-Encoding" (http.RespHeader w') = "deflate"
    /\ http.Get "Last-Modified" (http.RespHeader w') = "Mon, 01 Feb 2021 12:30:00 GMT"
    /\ http.Body w' = demo.licenseDeflated
    /\ http.sent w' = Some (200%Z, http.RespHeader w').
Proof.
  destruct (C1_fast_path_response (lib := demo.lib) demo.archive demo.recorder
              demo.getLicense 0 demo.licenseEntry
              {| io.unread := demo.licenseDeflated |})
    as (w' & Hw & Hct & Hcl & Hce & Hlm & Hb & Hs);
    [vm_compute; reflexivity..|].
  exists w'. repeat split; [exact Hw | exact Hct | exact Hcl | exact Hce
                           | exact Hlm | exact Hb |].
  apply Hs; [reflexivity | discriminate].
Defined.

(** The claim C2 as the specification states it fails on an archive
    without a Deflate entry: the handler is then the file server itself,
    and the response to a request that does not accept deflate has neither
    a Vary nor an Accept-Ranges field. *)
Lemma C2_counterexample :
  strings_Contains
    (http.Get "Accept-Encoding" (http.ReqHeader demo.getPlain)) "deflate" = false
  /\ exists resp,
       Handler (lib := demo.lib) demo.storedArchive demo.recorder demo.getPlain
       = Some resp
       /\ srv (lib := demo.lib) demo.storedArchive demo.recorder demo.getPlain
          = Some resp
       /\ http.Values "Vary" (http.RespHeader resp) = []
       /\ http.Get "Accept-Ranges" (http.RespHeader resp) <> "none"
       /\ fallbackServe (lib := demo.lib) demo.storedArchive
            (announce demo.recorder) demo.getPlain <> Some resp.
Proof.
  split; [reflexivity|]. eexists.
  split; [vm_compute; reflexivity|]. split; [vm_compute; reflexivity|].
  split; [vm_compute; reflexivity|]. split; [vm_compute; discriminate|].
  intros Heq.
  apply (f_equal (option_map (fun w => http.Values "Vary" (http.RespHeader w))))
    in Heq.
  vm_compute in Heq. discriminate.
Qed.

(** C2 as amended, at a request for a range of ["/LICENSE.txt"]. *)
Lemma C2_witness :
  http.Get "Range" (http.ReqHeader demo.getRange) = "bytes=0-9"
  /\ Handler (lib := demo.lib) demo.archive demo.recorder demo.getRange
     = fallbackServe (lib := demo.lib) demo.archive (announce demo.recorder)
         demo.getRange.
Proof.
  split; [reflexivity|].
  apply (C2_ineligible_delegates (lib := demo.lib) demo.archive demo.recorder
           demo.getRange).
  right; left. vm_compute. discriminate.
Defined.

(** The claim C3 as the specification states it fails on an archive
    without a Deflate entry, even for a request that accepts deflate. *)
Lemma C3_counterexample :
  exists resp,
    Handler (lib := demo.lib) demo.storedArchive demo.recorder demo.getLicense
    = Some resp
    /\ ~ announced (http.RespHeader resp).
Proof.
  eexists. split; [vm_compute; reflexivity|].
  intros [Hvary _]. vm_compute in Hvary. by apply elem_of_nil in Hvary.
Qed.

(** C3 as amended, at [TestHandler]. *)
Lemma C3_witness :
  announced (http.RespHeader (announce demo.recorder))
  /\ exists w',
       Handler (lib := demo.lib) demo.archive demo.recorder demo.getLicense
       = Some w'
       /\ announced (http.RespHeader w').
Proof.
  destruct (C3_headers_announced (lib := demo.lib) demo.archive demo.recorder
              demo.getLicense 0 demo.licenseEntry eq_refl eq_refl)
    as (Hfirst & Hserved & _).
  split; [exact Hfirst | exact Hserved].
Defined.

(** C7 at a path the archive does not have. *)
Lemma C7_witness :
  lookupKey demo.getMissing = "missing.css"
  /\ Handler (lib := demo.lib) demo.archive demo.recorder demo.getMissing
     = fallbackServe (lib := demo.lib) demo.archive (announce demo.recorder)
         demo.getMissing.
Proof.
  destruct (C7_key_and_miss (lib := demo.lib) demo.archive demo.recorder
              demo.getMissing) as [Hkey Hmiss];
    [vm_compute; reflexivity..|].
  split; [exact Hkey|]. apply Hmiss. vm_compute. reflexivity.
Defined.

(** C8 at [TestHandler] once the archive has become unreadable. *)
Lemma C8_witness :
  zip.OpenRaw (demo.unreadable demo.licenseEntry) = Err demo.errIO
  /\ Handler (lib := demo.lib) demo.brokenArchive demo.recorder demo.getLicense
     = fallbackServe (lib := demo.lib) demo.brokenArchive
         (announce demo.recorder) demo.getLicense.
Proof.
  split; [reflexivity|].
  apply (C8_raw_open_failure (lib := demo.lib) demo.brokenArchive demo.recorder
           demo.getLicense 0 (demo.unreadable demo.licenseEntry) demo.errIO);
    vm_compute; reflexivity.
Defined.



(** C10 at a request whose Accept-Encoding is ["deflate;q=0"]. *)
Lemma C10_witness :
  http.Get "Accept-Encoding" (http.ReqHeader demo.getDeclining) = "deflate;q=0"
  /\ exists w',
       Handler (lib := demo.lib) demo.archive demo.recorder demo.getDeclining
       = Some w'
       /\ http.Get "Content-Encoding" (http.RespHeader w') = "deflate"
       /\ http.Body w' = demo.licenseDeflated.
Proof.
  split; [reflexivity|].
  apply (C10_substring_match (lib := demo.lib) demo.archive demo.recorder
           demo.getDeclining 1 demo.unknownEntry
           {| io.unread := demo.licenseDeflated |} "" ";q=0");
    vm_compute; reflexivity.
Defined.

(** C4 at an archive with a repeated name: the key leads to the last
    Deflate entry of the name, which is not the last entry of the name. *)
Lemma C4_witness :
  deflateIndex demo.duplicates !! "a.css" = Some 2
  /\ lastDeflate (zip.Files demo.duplicates) "a.css" 2
  /\ ~ is_Some (deflateIndex demo.duplicates !! "b.css").
Proof.
  destruct (C4_index_invariant demo.duplicates) as [Hkeys Hlast].
  assert (deflateIndex demo.duplicates !! "a.css" = Some 2) as Ha
    by (vm_compute; reflexivity).
  split; [exact Ha|]. split; [by apply Hlast|].
  rewrite Hkeys. intros (i & f & Hf & Hname & Hdeflate).
  destruct i as [|[|[|[|i]]]]; simplify_eq/=.
Defined.

(** C5 at the entries of the tests: ["LICENSE.txt"] has the type of its
    extension; ["unknown"] has the sniffed type of the ten bytes that the
    first [Read] delivers; and it has the generic type once the archive is
    unreadable. *)
Lemma C5_witness :
  conjureContentType (lib := demo.lib) demo.licenseEntry
  = "text/plain; charset=utf-8"
  /\ conjureContentType (lib := demo.lib) demo.unknownEntry
     = demo.DetectContentType (take 10 demo.license)
  /\ conjureContentType (lib := demo.lib) (demo.unreadable demo.unknownEntry)
     = "application/octet-stream".
Proof.
  split; [|split].
  - apply (C5_content_type (lib := demo.lib) demo.licenseEntry). discriminate.
  - destruct (C5_content_type (lib := demo.lib) demo.unknownEntry)
      as (_ & Hsniff & _).
    destruct (Hsniff eq_refl _ eq_refl) as (_ & _ & Htype). exact Htype.
  - destruct (C5_content_type (lib := demo.lib)
                (demo.unreadable demo.unknownEntry))
      as (_ & _ & Hfail).
    exact (Hfail eq_refl _ eq_refl).
Defined.


(** * Further properties of the handler *)

Section Handler_properties.

Context {lib : Collaborators}.

(** What [fastPath] stands for: the three tests of the closure passed. *)
Lemma fastPath_Some (z : zip.Reader) (r : http.Request) (zf : zip.File)
    (rd : io.SectionReader) :
  fastPath z r = Some (zf, rd)
  <-> ineligible r = false
      /\ exists i, deflateIndex z !! lookupKey r = Some i
           /\ zip.Files z !! i = Some zf /\ zip.OpenRaw zf = Ok rd.
Proof.
  unfold fastPath. destruct (ineligible r).
  { split; [done | by intros [? _]]. }
  destruct (deflateIndex z !! lookupKey r) as [i|].
  - destruct (zip.Files z !! i) as [zf'|] eqn:Hzf.
    + destruct (zip.OpenRaw zf') as [rd'|] eqn:Hrd.
      * split.
        -- intros [= <- <-]. split; [done|]. by exists i.
        -- intros (_ & j & [= <-] & Hzf' & Hrd'). congruence.
      * split; [done|]. intros (_ & j & [= <-] & Hzf' & Hrd'). congruence.
    + split; [done|]. intros (_ & j & [= <-] & Hzf' & _). congruence.
  - split; [done|]. by intros (_ & j & Hj & _).
Qed.

(** A request that passes the three tests is answered from the raw
    stream. *)
Lemma Handler_fastPath (z : zip.Reader) (w : http.ResponseWriter)
    (r : http.Request) (zf : zip.File) (rd : io.SectionReader) :
  fastPath z r = Some (zf, rd) ->
  Handler z w r = Some (serveRaw zf rd (announce w)).
Proof.
  intros Hfast. pose proof Hfast as Hparts.
  apply fastPath_Some in Hparts as (_ & i & Hi & _).
  rewrite Handler_handlerFunc by by eapply deflateIndex_nonempty.
  by rewrite handlerFunc_cases, Hfast.
Qed.

(** The entry of the fast path is a Deflate entry named by the key. *)
Lemma fastPath_entry (z : zip.Reader) (r : http.Request) (zf : zip.File)
    (rd : io.SectionReader) :
  fastPath z r = Some (zf, rd) ->
  zip.Name zf = specKey (http.URL_Path r) /\ zip.Method zf = zip.Deflate.
Proof.
  intros Hfast. apply fastPath_Some in Hfast as (_ & i & Hi & Hzf & _).
  destruct (deflateIndex_in_range z _ i Hi) as (zf' & Hzf' & Hname & Hm).
  rewrite Hzf in Hzf'. injection Hzf' as <-.
  by rewrite <- lookupKey_specKey.
Qed.

(** X1: a GET request without Range that accepts deflate is answered with
    the stored bytes of the last Deflate entry of the archive that is named
    by the request's key, [CompressedSize64] of them, marked as deflate,
    whenever the body of that entry can be located. *)
Theorem Handler_serves_last_Deflate (z : zip.Reader) (w : http.ResponseWriter)
    (r : http.Request) (i : nat) (zf : zip.File) (stored : bytes) :
  ineligible r = false ->
  lastDeflate (zip.Files z) (specKey (http.URL_Path r)) i ->
  zip.Files z !! i = Some zf ->
  zip.body zf = Ok stored ->
  exists w',
    Handler z w r = Some w'
    /\ http.Body w'
       = (http.Body w ++ take (N.to_nat (zip.CompressedSize64 zf)) stored)%list
    /\ http.Get "Content-Encoding" (http.RespHeader w') = "deflate".
Proof.
  intros Hel Hlast Hzf Hbody.
  apply lastDeflateIdx_Some in Hlast.
  rewrite <- deflateIndex_lookup, <- lookupKey_specKey in Hlast.
  set (rd := {| io.unread := take (N.to_nat (zip.CompressedSize64 zf)) stored |}).
  assert (fastPath z r = Some (zf, rd)) as Hfast.
  { apply fastPath_Some. split; [done|]. exists i. split; [done|]. split; [done|].
    unfold zip.OpenRaw. by rewrite Hbody. }
  eexists. split; [by apply Handler_fastPath|].
  rewrite serveRaw_body, serveRaw_header. split; [done|]. by header_lookup.
Qed.

(** X2: [Handler] does not panic by itself: the index [z.File[i]] is always
    in range, so with a file server that returns, the handler returns for
    every archive, response writer and request. *)
Theorem Handler_never_panics (z : zip.Reader) :
  (forall fsys w0 r0, is_Some (http_FileServer fsys w0 r0)) ->
  forall w r, is_Some (Handler z w r).
Proof.
  intros Htotal w r. rewrite Handler_parts.
  destruct (Nat.eqb (size (deflateIndex z)) 0); [apply Htotal|].
  rewrite handlerFunc_cases. destruct (fastPath z r) as [[zf rd]|]; [done|].
  unfold fallbackServe, srvSeek0, srv. destruct (String.eqb _ ""); apply Htotal.
Qed.

(** X3: on the fast path the response depends on the request through its
    key only.  Two requests that pass the routing test and have the same
    key get the same response, whatever else they carry: conditional
    fields such as If-None-Match or If-Modified-Since are not looked at. *)
Theorem fast_path_same_key (z : zip.Reader) (w : http.ResponseWriter)
    (r1 r2 : http.Request) (zf : zip.File) (rd : io.SectionReader) :
  fastPath z r1 = Some (zf, rd) ->
  ineligible r2 = false ->
  specKey (http.URL_Path r2) = specKey (http.URL_Path r1) ->
  Handler z w r2 = Handler z w r1.
Proof.
  intros Hfast Hel Hkey.
  assert (fastPath z r2 = Some (zf, rd)) as Hfast2.
  { apply fastPath_Some in Hfast as (_ & i & Hi & Hzf & Hrd).
    apply fastPath_Some. split; [done|]. exists i.
    by rewrite lookupKey_specKey, Hkey, <- lookupKey_specKey. }
  by rewrite !(Handler_fastPath z w _ zf rd).
Qed.

(** X4: a response served from the raw stream differs from the header map
    the handler was given in six fields at most.  Vary keeps the values it
    had and gets Accept-Encoding as one more; Accept-Ranges has the single
    value none; every field other than these two, Content-Type,
    Content-Length, Content-Encoding and Last-Modified is as it was. *)
Theorem fast_path_header_frame (z : zip.Reader) (w : http.ResponseWriter)
    (r : http.Request) (zf : zip.File) (rd : io.SectionReader) :
  fastPath z r = Some (zf, rd) ->
  exists w',
    Handler z w r = Some w'
    /\ http.Values "Vary" (http.RespHeader w')
       = (http.Values "Vary" (http.RespHeader w) ++ ["Accept-Encoding"])%list
    /\ http.Values "Accept-Ranges" (http.RespHeader w') = ["none"]
    /\ forall k, k ∉ handlerFields ->
         http.RespHeader w' !! k = http.RespHeader w !! k.
Proof.
  intros Hfast. eexists. split; [by apply Handler_fastPath|].
  rewrite serveRaw_header. unfold announce. cbn [http.RespHeader http.HeaderSet http.HeaderAdd].
  split; [|split].
  - rewrite !Values_Set_ne by done. apply Values_Add_eq.
  - rewrite !Values_Set_ne by done. apply Values_Set_eq.
  - intros k Hk. unfold handlerFields in Hk.
    unfold http.Set_, http.Add.
    rewrite !lookup_insert_ne; [done|..]; intros <-; apply Hk; set_solver.
Qed.

(** X5: the body of a fast-path response is never longer than its
    Content-Length says, and is exactly that long if and only if the
    archive holds [CompressedSize64] bytes from the entry's body offset on;
    from an archive that ends before, the response is short. *)
Theorem Content_Length_and_body (z : zip.Reader) (w : http.ResponseWriter)
    (r : http.Request) (zf : zip.File) (rd : io.SectionReader)
    (stored : bytes) :
  fastPath z r = Some (zf, rd) ->
  zip.body zf = Ok stored ->
  exists w' written,
    Handler z w r = Some w'
    /\ http.Body w' = (http.Body w ++ written)%list
    /\ (N.of_nat (length written) <= zip.CompressedSize64 zf)%N
    /\ (http.Get "Content-Length" (http.RespHeader w')
        = strconv_FormatUint (N.of_nat (length written))
        <-> (zip.CompressedSize64 zf <= N.of_nat (length stored))%N).
Proof.
  intros Hfast Hbody. exists (serveRaw zf rd (announce w)), (io.unread rd).
  split; [by apply Handler_fastPath|]. split; [by rewrite serveRaw_body|].
  apply fastPath_Some in Hfast as (_ & i & _ & _ & Hraw).
  destruct (OpenRaw_bytes zf rd Hraw) as (stored' & Hbody' & ->).
  rewrite Hbody in Hbody'. injection Hbody' as <-.
  rewrite length_take, serveRaw_header. split; [lia|].
  replace (http.Get "Content-Length" _)
    with (strconv_FormatUint (zip.CompressedSize64 zf)) by by header_lookup.
  split.
  - intros Heq. apply strconv_FormatUint_inj in Heq. lia.
  - intros Hle. f_equal. lia.
Qed.

(** X6: the Content-Type of a fast-path response is never the default for
    an entry that does not open.  The entry is a Deflate entry whose body
    has just been located, so it opens: the type is that of the extension
    of the key, and where the extension has none, the type sniffed from
    what one read of the decompressed entry delivers. *)
Theorem fast_path_Content_Type (z : zip.Reader) (w : http.ResponseWriter)
    (r : http.Request) (zf : zip.File) (rd : io.SectionReader) :
  fastPath z r = Some (zf, rd) ->
  exists w',
    Handler z w r = Some w'
    /\ http.Get "Content-Type" (http.RespHeader w')
       = let byExt :=
           mime_TypeByExtension (path_Ext (specKey (http.URL_Path r))) in
         if String.eqb byExt "" then
           http_DetectContentType
             (take (Nat.min 512 (S (zip.burst zf 0))) (zip.plain zf))
         else byExt.
Proof.
  intros Hfast. eexists. split; [by apply Handler_fastPath|].
  rewrite serveRaw_header. header_lookup.
  destruct (fastPath_entry z r zf rd Hfast) as [Hname Hmethod].
  apply fastPath_Some in Hfast as (_ & i & _ & _ & Hraw).
  destruct (OpenRaw_bytes zf rd Hraw) as (stored & Hbody & _).
  unfold conjureContentType. cbv zeta. rewrite Hname.
  destruct (String.eqb _ ""); cbn [negb]; [|done].
  unfold zip.Open, zip.hasDecompressor. rewrite Hbody, Hmethod.
  change ((zip.Deflate =? zip.Store)%Z || (zip.Deflate =? zip.Deflate)%Z)
    with true. cbv iota.
  unfold zip.Read. cbn [zip.closed zip.pos zip.data zip.atMost andb].
  rewrite drop_0. destruct (zip.plain zf); by rewrite ?take_nil.
Qed.

End Handler_properties.

(** * Further properties of seekableFile *)

(** What every call on a wrapper keeps: the archive, the name, and a
    wrapped file that closes cleanly. *)
Lemma applyOp_keeps (f : seekableFile) (o : fileOp) :
  zip.closeErr (File f) = None ->
  zr (applyOp f o) = zr f /\ name (applyOp f o) = name f
  /\ zip.closeErr (File (applyOp f o)) = None.
Proof.
  intros Hclose. destruct o as [n|offset whence|]; cbn [applyOp].
  - unfold seekableFile_Read, zip.Read.
    destruct (zip.closed (File f) && negb (zip.nopCloser (File f))); [done|].
    by destruct (drop _ _).
  - destruct (Z.eqb_spec offset 0) as [->|Hoff];
      [destruct (Z.eqb_spec whence io.SeekStart) as [->|Hwh]|].
    + rewrite Seek_start_reopens by by apply Close_clean.
      destruct (zip.ReaderOpen (zr f) (name f)) as [file|] eqn:Hopen; [|done].
      destruct (ReaderOpen_fresh _ _ _ Hopen) as (zf & _ & ->). done.
    + unfold seekableFile_Seek.
      by rewrite (proj2 (Z.eqb_neq whence io.SeekStart)), orb_true_r by done.
    + unfold seekableFile_Seek.
      by rewrite (proj2 (Z.eqb_neq offset 0)) by done.
  - done.
Qed.

Lemma applyOps_keeps (ops : list fileOp) (f : seekableFile) :
  zip.closeErr (File f) = None ->
  zr (applyOps ops f) = zr f /\ name (applyOps ops f) = name f
  /\ zip.closeErr (File (applyOps ops f)) = None.
Proof.
  revert f. induction ops as [|o ops IH]; intros f Hclose; [done|].
  cbn [applyOps fold_left].
  destruct (applyOp_keeps f o Hclose) as (Hzr & Hname & Hclose').
  destruct (IH _ Hclose') as (Hzr' & Hname' & Hclose'').
  unfold applyOps in *. by rewrite Hzr', Hname', Hzr, Hname.
Qed.

(** X7: a wrapper that [seekableFS.Open] made can always be rewound.
    After any sequence of [Read], [Seek] and [Close] calls on it,
    [Seek(0, io.SeekStart)] returns position 0 without an error and puts
    the wrapper back into the very state [Open] made: a closed wrapper is
    open again, and a wrapper read to the end stands at byte 0.  The
    archive is the one the wrapper was opened on, unchanged, and its
    readers close without an error. *)
Theorem Seek_rewinds_after_any_calls (s : seekableFS) (path : string)
    (f : seekableFile) (ops : list fileOp) :
  seekableFS_Open s path = Ok f ->
  seekableFile_Seek (applyOps ops f) 0 io.SeekStart = (0%Z, None, f).
Proof.
  intros Hopen.
  destruct (seekableFS_Open_fresh s path f Hopen) as (_ & _ & zf & _ & Hfile).
  assert (zip.closeErr (File f) = None) as Hclose by by rewrite Hfile.
  destruct (applyOps_keeps ops f Hclose) as (Hzr & Hname & Hclose').
  by apply (Seek_start_after_Open s path).
Qed.

(** * Properties of memseek *)

Section memseek_properties.

Context {T F : Type} `{fs.File F} `{!fs.FS T F}.

(** The loop of [io.ReadFull] on a file that holds [d]: as many rounds as
    bytes are missing are enough; the buffer gets the next missing bytes of
    [d], and the loop ends on [io.EOF] when [d] has fewer. *)
Lemma ReadFull_loop_Delivers (fuel len : nat) (got : bytes) (f : F) (d : bytes) :
  Delivers f d -> len - length got <= fuel ->
  exists err f',
    ReadFull_loop fuel len got f
    = Some ((got ++ take (len - length got) d)%list, err, f')
    /\ (length d < len - length got -> err = Some io.EOF).
Proof.
  revert got f d. induction fuel as [|fuel IH]; intros got f d Hd Hfuel.
  - cbn [ReadFull_loop]. destruct (Nat.ltb_spec (length got) len) as [Hlt|Hge]; [lia|].
    exists None, f. replace (len - length got) with 0 by lia.
    rewrite take_0, app_nil_r. split; [done | lia].
  - cbn [ReadFull_loop]. destruct (Nat.ltb_spec (length got) len) as [Hlt|Hge].
    + inversion Hd as [f0 Hend|f0 d0 Hne Hmore]; subst.
      * destruct (Hend (len - length got)) as (f' & ->); [lia|].
        exists (Some io.EOF), f'. by rewrite take_nil.
      * destruct (Hmore (len - length got))
          as (k & err & f' & -> & Hk & Hkd & [[-> Hrest]|[-> ->]]); [lia|..].
        -- destruct (IH (got ++ take k d)%list f' (drop k d) Hrest)
             as (err & f'' & -> & Herr).
           { rewrite length_app, length_take. lia. }
           exists err, f''. rewrite length_app, length_take.
           replace (length got + k `min` length d) with (length got + k) by lia.
           split.
           ++ rewrite <- app_assoc, take_take_drop.
              by replace (k + (len - (length got + k))) with (len - length got)
                by lia.
           ++ intros Hshort. apply Herr.
              rewrite length_drop, length_app, length_take. lia.
        -- exists (Some io.EOF), f'. split; [|done].
           by rewrite !take_ge by lia.
    + exists None, f. replace (len - length got) with 0 by lia.
      rewrite take_0, app_nil_r. split; [done | lia].
Qed.

(** [io.ReadFull] on a file that holds [d]: the first [len] bytes of [d]
    without an error when [d] has as many, and else all of [d] with
    [io.ErrUnexpectedEOF], or [io.EOF] when [d] is empty. *)
Lemma io_ReadFull_Delivers (fuel len : nat) (f : F) (d : bytes) :
  Delivers f d -> len <= fuel ->
  exists f',
    io_ReadFull fuel len f
    = Some (take len d,
            (if (len <=? length d)%nat then None
             else Some (match d with
                        | [] => io.EOF
                        | _ => io_ErrUnexpectedEOF
                        end)),
            f').
Proof.
  intros Hd Hfuel. unfold io_ReadFull.
  destruct (ReadFull_loop_Delivers fuel len [] f d Hd) as (err & f' & -> & Herr).
  { cbn [length]. lia. }
  exists f'. cbn [length app]. rewrite Nat.sub_0_r, length_take.
  destruct (Nat.leb_spec len (length d)) as [Hle|Hgt].
  - by rewrite (proj2 (Nat.leb_le _ _)) by lia.
  - rewrite (proj2 (Nat.leb_gt _ _)) by lia.
    rewrite Herr by (cbn [length] in *; lia).
    rewrite (Nat.min_r len (length d)) by lia.
    by destruct d.
Qed.

(** [Open] of a regular file comes down to [io.ReadFull]. *)
Lemma memseek_Open_regular (fuel : nat) (t : T) (path : string) (f : F)
    (st : fs.FileInfo) (size : nat) :
  fs.Open t path = Ok f ->
  fs.Stat f = Ok st -> fs.IsDir st = false -> fs.Size st = Z.of_nat size ->
  memseek.Open fuel (memseek.FS t) path
  = match io_ReadFull fuel size f with
    | None => OutOfFuel
    | Some (_, Some err, _) => Done (Err err)
    | Some (data, None, f') =>
        Done (Ok (memseek.seekable
                    {| memseek.Reader := bytes.Reset data; memseek.File := f' |}))
    end.
Proof.
  intros Hopen Hstat Hdir Hsize.
  unfold memseek.Open, memseek.FS. cbn [memseek.fs].
  rewrite Hopen, Hstat, Hdir, Hsize.
  rewrite (proj2 (Z.ltb_ge _ _)) by lia. rewrite Nat2Z.id.
  destruct (io_ReadFull fuel size f) as [[[data [err|]] f']|]; done.
Qed.


(** X9: a file opened through the wrapper is seekable, and is served from
    memory.  For a regular file that holds [d] and reports its length,
    [Open] returns a wrapper on which [Seek] to any offset [k] from the
    start succeeds and the next [Read] delivers the bytes of [d] from [k]
    on, as many as the buffer holds or [d] has left, and [io.EOF] from the
    end of [d] on; [Seek(0, io.SeekEnd)] returns the length of [d]; and
    [Close], which closes the file underneath, changes nothing of what
    [Read] delivers. *)
Theorem memseek_random_access (fuel : nat) (t : T) (path : string) (f : F)
    (st : fs.FileInfo) (d : bytes) :
  fs.Open t path = Ok f ->
  fs.Stat f = Ok st -> fs.IsDir st = false ->
  fs.Size st = Z.of_nat (length d) ->
  Delivers f d ->
  length d <= fuel ->
  exists sf,
    memseek.Open fuel (memseek.FS t) path = Done (Ok (memseek.seekable sf))
    /\ (forall k n : nat,
          exists sf',
            memseek.Seek sf (Z.of_nat k) io.SeekStart = (Z.of_nat k, None, sf')
            /\ (memseek.Read n sf').1
               = if (k <? length d)%nat then (take n (drop k d), None)
                 else ([], Some io.EOF))
    /\ ((Z.of_nat (length d) < 2 ^ 63)%Z ->
        (memseek.Seek sf 0 io.SeekEnd).1 = (Z.of_nat (length d), None))
    /\ (forall n, (memseek.Read n (memseek.Close sf).2).1 = (memseek.Read n sf).1).
Proof.
  intros Hopen Hstat Hdir Hsize Hd Hfuel.
  rewrite (memseek_Open_regular fuel t path f st (length d)) by done.
  destruct (io_ReadFull_Delivers fuel (length d) f d Hd Hfuel) as (f' & ->).
  rewrite Nat.leb_refl, take_ge by done.
  eexists. split; [reflexivity|]. split; [|split].
  - intros k n. eexists. split.
    + unfold memseek.Seek, bytes.Seek, bytes.Reset.
      cbn [memseek.Reader memseek.File bytes.s bytes.i].
      change (io.SeekStart =? io.SeekStart)%Z with true. cbv iota zeta.
      by rewrite (proj2 (Z.ltb_ge _ _)) by lia.
    + unfold memseek.Read, bytes.Read, bytes.Reset.
      cbn [memseek.Reader bytes.s bytes.i].
      destruct (Nat.ltb_spec k (length d)) as [Hlt|Hge].
      * rewrite (proj2 (Z.leb_gt _ _)) by lia. by rewrite Nat2Z.id.
      * by rewrite (proj2 (Z.leb_le _ _)) by lia.
  - intros Hlen. unfold memseek.Seek, bytes.Seek, bytes.Reset.
    cbn [memseek.Reader memseek.File bytes.s bytes.i].
    change (io.SeekEnd =? io.SeekStart)%Z with false.
    change (io.SeekEnd =? io.SeekCurrent)%Z with false.
    change (io.SeekEnd =? io.SeekEnd)%Z with true. cbv iota zeta.
    replace (int64 (Z.of_nat (length d) + 0)) with (Z.of_nat (length d)).
    + by rewrite (proj2 (Z.ltb_ge _ _)) by lia.
    + unfold int64. rewrite Z.add_0_r.
      rewrite Z.mod_small by lia. lia.
  - intros n. unfold memseek.Close, memseek.Read. cbn [memseek.Reader memseek.File].
    destruct (fs.Close f') as [e file]. cbn [snd memseek.Reader memseek.File].
    by destruct (bytes.Read n (bytes.Reset d)) as [[p err] rd].
Qed.

End memseek_properties.

(** One [Read] of an open entry that has bytes left. *)
Lemma zip_Read_more (n : nat) (rc : zip.entryReader) (b : Byte.byte)
    (rest : bytes) :
  zip.closed rc = false ->
  drop (zip.pos rc) (zip.data rc) = b :: rest ->
  0 < n ->
  exists k,
    0 < k <= n /\ k <= S (length rest)
    /\ zip.Read n rc
       = (take k (b :: rest), None,
          {| zip.data := zip.data rc; zip.pos := zip.pos rc + k;
             zip.atMost := zip.atMost rc; zip.nopCloser := zip.nopCloser rc;
             zip.closed := false; zip.closeErr := zip.closeErr rc |}).
Proof.
  intros Hopen Hrest Hn. unfold zip.Read. rewrite Hopen, Hrest.
  cbn [andb]. cbv zeta.
  set (k0 := Nat.min n (S (zip.atMost rc (zip.pos rc)))).
  exists (Nat.min k0 (S (length rest))).
  split; [unfold k0; lia|]. split; [lia|].
  rewrite length_take. change (length (b :: rest)) with (S (length rest)).
  do 2 f_equal.
  destruct (Nat.min_spec k0 (S (length rest))) as [[_ ->]|[Hge ->]]; [done|].
  by rewrite !take_ge by (cbn [length]; lia).
Qed.

(** An open entry of an archive holds the rest of its decompressed
    stream. *)
Lemma zipFile_Delivers (m : nat) (st : result fs.FileInfo)
    (rc : zip.entryReader) :
  zip.closed rc = false ->
  length (zip.data rc) - zip.pos rc <= m ->
  Delivers {| info := st; reader := rc |} (drop (zip.pos rc) (zip.data rc)).
Proof.
  revert rc. induction m as [|m IH]; intros rc Hopen Hlen.
  - rewrite drop_ge by lia. apply Delivers_end. intros n Hn. eexists.
    cbn [fs.Read zipFile_File reader info]. unfold zip.Read.
    by rewrite Hopen, drop_ge by lia.
  - destruct (drop (zip.pos rc) (zip.data rc)) as [|b rest] eqn:Hrest.
    + apply Delivers_end. intros n Hn. eexists.
      cbn [fs.Read zipFile_File reader info]. unfold zip.Read.
      by rewrite Hopen, Hrest.
    + apply Delivers_more; [done|]. intros n Hn.
      destruct (zip_Read_more n rc b rest Hopen Hrest Hn) as (k & Hk & Hkd & Hread).
      exists k, None. eexists. split; [|split; [done|split; [done|]]].
      * cbn [fs.Read zipFile_File reader info]. by rewrite Hread.
      * left. split; [done|]. rewrite <- Hrest, drop_drop.
        apply (IH {| zip.data := zip.data rc; zip.pos := zip.pos rc + k;
                     zip.atMost := zip.atMost rc;
                     zip.nopCloser := zip.nopCloser rc;
                     zip.closed := false; zip.closeErr := zip.closeErr rc |});
          [done|].
        cbn [zip.data zip.pos]. lia.
Qed.

(** * The further properties on the archives of the tests *)

(** The file server of the concrete setting returns for every request. *)
Lemma demo_FileServer_returns (fsys : FileSystem) (w : http.ResponseWriter)
    (r : http.Request) :
  is_Some (demo.FileServer fsys w r).
Proof.
  unfold demo.FileServer. cbv zeta.
  destruct (FS_Open fsys _) as [f|]; [|done].
  destruct (String.eqb _ "").
  - destruct (demo.readFull 512 512 f) as [p f'].
    destruct (demo.fsSeek f' 0 io.SeekStart) as [[n [err|]] f'']; done.
  - done.
Qed.

(** X1 at an archive with three entries named ["a.css"]: the response to a
    request for ["/a.css"] is the stored stream of the entry at index 2,
    the last of the two Deflate entries. *)
Lemma Handler_serves_last_Deflate_witness :
  exists w',
    Handler (lib := demo.lib) demo.duplicates demo.recorder
      (demo.request "GET" "/a.css" [("Accept-Encoding", "deflate")]) = Some w'
    /\ http.Body w' = demo.licenseDeflated
    /\ http.Get "Content-Encoding" (http.RespHeader w') = "deflate".
Proof.
  apply (Handler_serves_last_Deflate (lib := demo.lib) demo.duplicates
           demo.recorder
           (demo.request "GET" "/a.css" [("Accept-Encoding", "deflate")])
           2 (demo.entry "a.css" zip.Deflate demo.licenseDeflated)
           demo.licenseDeflated).
  - vm_compute; reflexivity.
  - apply lastDeflateIdx_Some. vm_compute; reflexivity.
  - reflexivity.
  - reflexivity.
Defined.

(** X2 at the request of [TestHandler_seekableFile]. *)
Lemma Handler_never_panics_witness :
  is_Some (Handler (lib := demo.lib) demo.archive demo.recorder demo.getUnknown).
Proof.
  apply (Handler_never_panics (lib := demo.lib) demo.archive
           demo_FileServer_returns).
Defined.

(** X3: the request of [TestHandler], and one for the same entry that
    names it without the slash, lists the encodings differently and asks
    for a revalidation. *)
Lemma fast_path_same_key_witness :
  Handler (lib := demo.lib) demo.archive demo.recorder
    (demo.request "GET" "LICENSE.txt"
       [("Accept-Encoding", "br, deflate"); ("If-None-Match", "*");
        ("If-Modified-Since", "Mon, 01 Feb 2021 12:30:00 GMT")])
  = Handler (lib := demo.lib) demo.archive demo.recorder demo.getLicense.
Proof.
  apply (fast_path_same_key (lib := demo.lib) demo.archive demo.recorder
           demo.getLicense _ demo.licenseEntry
           {| io.unread := demo.licenseDeflated |});
    vm_compute; reflexivity.
Defined.

(** X4 on a response to which a middleware has added Vary: Origin and a
    Server field. *)
Lemma fast_path_header_frame_witness :
  exists w',
    Handler (lib := demo.lib) demo.archive behindMiddleware demo.getLicense
    = Some w'
    /\ http.Values "Vary" (http.RespHeader w') = ["Origin"; "Accept-Encoding"]
    /\ http.Values "Accept-Ranges" (http.RespHeader w') = ["none"]
    /\ http.Values "Server" (http.RespHeader w') = ["zipserver"].
Proof.
  destruct (fast_path_header_frame (lib := demo.lib) demo.archive
              behindMiddleware
              demo.getLicense demo.licenseEntry
              {| io.unread := demo.licenseDeflated |})
    as (w' & Hw & Hvary & Hranges & Hframe); [vm_compute; reflexivity|].
  exists w'. split; [exact Hw|]. split; [exact Hvary|]. split; [exact Hranges|].
  unfold http.Values. rewrite (Hframe "Server"); [reflexivity|].
  unfold handlerFields. intros Hin.
  repeat (apply elem_of_cons in Hin as [Hin|Hin]; [discriminate|]).
  by apply elem_of_nil in Hin.
Defined.

(** X5 at [TestHandler]: 33 bytes, as Content-Length says. *)
Lemma Content_Length_and_body_witness :
  exists w' written,
    Handler (lib := demo.lib) demo.archive demo.recorder demo.getLicense = Some w'
    /\ http.Body w' = written
    /\ http.Get "Content-Length" (http.RespHeader w')
       = strconv_FormatUint (N.of_nat (length written)).
Proof.
  destruct (Content_Length_and_body (lib := demo.lib) demo.archive demo.recorder
              demo.getLicense demo.licenseEntry
              {| io.unread := demo.licenseDeflated |} demo.licenseDeflated)
    as (w' & written & Hw & Hbody & _ & Hlen); [vm_compute; reflexivity..|].
  exists w', written. split; [exact Hw|]. split; [exact Hbody|].
  apply Hlen. vm_compute. discriminate.
Defined.

(** X6 at a request for ["/unknown"] that accepts deflate: no type by
    extension, and the type sniffed from the first ten bytes of the
    entry. *)
Lemma fast_path_Content_Type_witness :
  exists w',
    Handler (lib := demo.lib) demo.archive demo.recorder
      (demo.request "GET" "/unknown" [("Accept-Encoding", "deflate")]) = Some w'
    /\ http.Get "Content-Type" (http.RespHeader w')
       = demo.DetectContentType (take 10 demo.license).
Proof.
  apply (fast_path_Content_Type (lib := demo.lib) demo.archive demo.recorder
           (demo.request "GET" "/unknown" [("Accept-Encoding", "deflate")])
           demo.unknownEntry {| io.unread := demo.licenseDeflated |}).
  vm_compute; reflexivity.
Defined.

(** X7 on ["unknown"]: a read, a seek that is refused, a read to the end
    and a close, and then the seek to the start. *)
Lemma Seek_rewinds_after_any_calls_witness :
  exists f,
    seekableFS_Open {| Reader := demo.archive |} "unknown" = Ok f
    /\ seekableFile_Seek
         (applyOps [opRead 10; opSeek 5 io.SeekStart; opRead 512; opClose] f)
         0 io.SeekStart
       = (0%Z, None, f).
Proof.
  eexists. split; [reflexivity|].
  apply (Seek_rewinds_after_any_calls {| Reader := demo.archive |} "unknown").
  reflexivity.
Defined.


(** X9 on the same file: the six bytes from offset 14 on. *)
Lemma memseek_random_access_witness :
  exists sf sf',
    memseek.Open 28 (memseek.FS demo.archive) "unknown"
    = Done (Ok (memseek.seekable sf))
    /\ memseek.Seek sf 14 io.SeekStart = (14%Z, None, sf')
    /\ (memseek.Read 6 sf').1 = (list_byte_of_string "hereby", None).
Proof.
  destruct (memseek_random_access 28 demo.archive "unknown"
              {| info := Ok {| fs.IsDir := false; fs.Size := 28 |};
                 reader := {| zip.data := demo.license; zip.pos := 0;
                              zip.atMost := demo.tenAtATime;
                              zip.nopCloser := false;
                              zip.closed := false; zip.closeErr := None |} |}
              {| fs.IsDir := false; fs.Size := 28 |} demo.license)
    as (sf & Hopen & Hseek & _).
  - reflexivity.
  - reflexivity.
  - reflexivity.
  - reflexivity.
  - apply (zipFile_Delivers 28); [reflexivity | vm_compute; lia].
  - vm_compute; lia.
  - destruct (Hseek 14 6) as (sf' & Hsf' & Hread).
    exists sf, sf'. split; [exact Hopen|]. split; [exact Hsf'|]. exact Hread.
Defined.
